(** * MBMConnect-backend: the real-time socket layer ([socket.js])

    A shallow embedding of the socket handlers of [socket.js] and the
    properties of presence tracking, message relay and reaction counting
    that are checked against it.

    Conventions of the embedding.
    - JavaScript strings are [string]; the numeric fields [likes] and
      [dislikes] are [Z].  The code computes on doubles, which agree with
      [Z] on integers of magnitude below [2 ^ 53] ([counts_safe]); a
      statement that gives the exact value of a count computed from
      arbitrary stored counts carries that bound.
    - [onlineUsersMap] is a JS [Map], which iterates in insertion order:
      it is a list of entries with distinct keys.  Its values are JS
      [Set]s of socket ids, used only through [has], [add], [delete] and
      [size]: they are [gset string].
    - A handler is a computation over the server's [World] that may throw;
      [try { .. } catch (error) { .. }] is [try_catch].  State written
      before a throw stays written, as in JavaScript.
    - Every awaited Mongoose call may reject (validation, cast or
      connection errors).  Whether it does is read from [storeFaults], a
      schedule of outcomes carried by the world.
    - [console.error] lines are recorded in [console]; the informational
      [console.log] lines are left out.
    - User ids, socket ids and reaction categories are the strings the
      clients send.
    - The server handles one event to completion before the next; the
      interleaving of two handlers at an [await] is not modelled.  A call
      to [emitOnlineUsers] that is not awaited runs in place. *)

From stdpp Require Import gmap strings list fin_maps.
From Stdlib Require Import ZArith.

(* [set_solver] clears hypotheses by name and warns when one is gone. *)
Set Warnings "-clear-no-such-hyp".

Open Scope string_scope.
Open Scope Z_scope.

(** ** JavaScript helpers *)

(** Truthiness of a value that is either [undefined] or a string:
    [undefined] and the empty string are falsy. *)
Definition truthy (v : option string) : bool :=
  match v with
  | None => false
  | Some s => negb (String.eqb s "")
  end.

(** [s.startsWith(p)]. *)
Definition startsWith (p s : string) : bool := String.prefix p s.

(** ** The Mongoose models used by [socket.js] *)

Module Reaction.
(** Modelled from the spec: [models/Event] is not part of the source; a
    reaction is the pair of fields [socket.js] reads and writes. *)
Record t := mk { user : string; type : string }.

Definition with_type (ty : string) (r : t) : t :=
  {| user := user r; type := ty |}.

End Reaction.

Module Event.
(** Modelled from the spec: [models/Event] is not part of the source; the
    fields are those of the spec's UpdatePost, under the names
    [socket.js] uses. *)
Record t := mk {
  _id : string;
  title : string;
  description : string;
  organizer : string;
  likes : Z;
  dislikes : Z;
  reactions : list Reaction.t
}.

Definition with_likes (n : Z) (e : t) : t :=
  mk (_id e) (title e) (description e) (organizer e) n (dislikes e) (reactions e).
Definition with_dislikes (n : Z) (e : t) : t :=
  mk (_id e) (title e) (description e) (organizer e) (likes e) n (reactions e).
Definition with_reactions (rs : list Reaction.t) (e : t) : t :=
  mk (_id e) (title e) (description e) (organizer e) (likes e) (dislikes e) rs.

End Event.

(** ** The reaction toggle (lines 168-202 of [socket.js])

    [react userId reactionType update] is the in-memory mutation the
    [updateReaction] handler applies to the loaded document, for the
    authenticated user [userId].  The counts are integers; [+ 1] and [- 1]
    are those of the code as long as the counts are safe integers
    ([counts_safe]). *)
Definition react (userId reactionType : string) (update : Event.t) : Event.t :=
  match list_find (λ r, Reaction.user r = userId) (Event.reactions update) with
  | Some (existingReactionIndex, existingReaction) =>
      if decide (Reaction.type existingReaction = reactionType) then
        let update :=
          Event.with_reactions
            (delete existingReactionIndex (Event.reactions update)) update in
        if decide (reactionType = "like") then
          Event.with_likes (Z.max 0 (Event.likes update - 1)) update
        else
          Event.with_dislikes (Z.max 0 (Event.dislikes update - 1)) update
      else
        let update :=
          Event.with_reactions
            (alter (Reaction.with_type reactionType) existingReactionIndex
               (Event.reactions update)) update in
        if decide (reactionType = "like") then
          let update := Event.with_likes (Event.likes update + 1) update in
          Event.with_dislikes (Z.max 0 (Event.dislikes update - 1)) update
        else
          let update := Event.with_dislikes (Event.dislikes update + 1) update in
          Event.with_likes (Z.max 0 (Event.likes update - 1)) update
  | None =>
      let update :=
        Event.with_reactions
          (Event.reactions update ++ [Reaction.mk userId reactionType]) update in
      if decide (reactionType = "like") then
        Event.with_likes (Event.likes update + 1) update
      else
        Event.with_dislikes (Event.dislikes update + 1) update
  end.

(** ** JavaScript [Map] with string keys, in insertion order *)

Module JsMap.
Section ops.
Context {V : Type}.

(** [m.get(k)]; [None] is [undefined]. *)
Fixpoint get (k : string) (m : list (string * V)) : option V :=
  match m with
  | [] => None
  | (k', v) :: m' => if decide (k' = k) then Some v else get k m'
  end.

(** [m.has(k)]. *)
Definition has (k : string) (m : list (string * V)) : bool :=
  match get k m with Some _ => true | None => false end.

(** [m.set(k, v)]: an existing key keeps its place, a new key goes last. *)
Fixpoint set (k : string) (v : V) (m : list (string * V)) : list (string * V) :=
  match m with
  | [] => [(k, v)]
  | (k', v') :: m' =>
      if decide (k' = k) then (k, v) :: m' else (k', v') :: set k v m'
  end.

(** [m.delete(k)]. *)
Fixpoint delete (k : string) (m : list (string * V)) : list (string * V) :=
  match m with
  | [] => []
  | (k', v') :: m' =>
      if decide (k' = k) then delete k m' else (k', v') :: delete k m'
  end.

(** [Array.from(m.keys())]. *)
Definition keys (m : list (string * V)) : list string := m.*1.
End ops.
End JsMap.

Module User.
(** Modelled from the spec: [models/User] is not part of the source; the
    fields are those [socket.js] selects, filters on and updates. *)
Record t := mk {
  _id : string;
  username : string;
  profilePicture : option string;
  avatar : option string;
  isVerified : bool;
  isPremium : bool;
  showOnlineStatus : bool;
  isOnline : bool;
  lastSeen : Z
}.

Definition with_presence (online : bool) (seen : Z) (u : t) : t :=
  mk (_id u) (username u) (profilePicture u) (avatar u) (isVerified u)
     (isPremium u) (showOnlineStatus u) online seen.

End User.

Module Message.
(** Modelled from the spec: [models/Message] is not part of the source;
    the fields are those [sendMessage] passes to the constructor. *)
Record t := mk { sender : string; recipient : string; text : string }.

End Message.

(** A value of a settings field, as far as [typeof] tells them apart. *)
Inductive jsval :=
| JBool (b : bool)
| JString (s : string)
| JNumber (n : Z).

(** ** Payloads and emissions *)

(** An entry of the [onlineUsers] snapshot (lines 34-41). *)
Record OnlineUser := mkOnlineUser {
  ou_id : string;
  ou_username : string;
  ou_profilePicture : option string;
  ou_avatar : option string;
  ou_isVerified : bool;
  ou_isPremium : bool
}.

(** A populated [sender], [recipient] or [organizer] reference. *)
Record PopulatedUser := mkPopulatedUser {
  pu_id : string;
  pu_username : string;
  pu_profilePicture : option string;
  pu_avatar : option string
}.

(** [newMessage.toObject()] after both [populate] calls; [None] is [null]. *)
Record FormattedMessage := mkFormattedMessage {
  fm_sender : option PopulatedUser;
  fm_recipient : option PopulatedUser;
  fm_text : string
}.

Inductive payload :=
| POnlineUsers (usersToShowAsOnline : list OnlineUser)
| PMessage (formattedMessage : FormattedMessage)
| PNewUpdate (newUpdate : Event.t) (organizer : option PopulatedUser)
| PUpdate (update : Event.t)
| PError (message : string).

(** [io.emit], [io.to(room).emit] and [socket.emit]. *)
Inductive target :=
| ToAll
| ToRoom (room : string)
| ToSocket (socketId : string).

Record emission := mkEmission {
  em_target : target;
  em_event : string;
  em_payload : payload
}.

(** What a handler does to the outside, in program order: an emission, or
    a write the store has accepted. *)
Inductive effect :=
| Emit (e : emission)
| SavedMessage (m : Message.t)
| SavedEvent (e : Event.t)
| UpdatedUser (userId : string) (isOnline : bool) (lastSeen : Z)
| UpdatedSettings (user : string) (settings : gmap string jsval).

(** ** The state of the server *)

Module Socket.
(** The part of a socket object the handlers use: the [userId] property
    set by [userLogin] and the rooms joined. *)
Record t := mk { userId : option string; rooms : gset string }.

(** A new socket: no [userId], and in the room named by its own id. *)
Definition fresh (socketId : string) : t := mk None {[ socketId ]}.
End Socket.

Record World := mkWorld {
  onlineUsersMap : list (string * gset string);
  sockets : gmap string Socket.t;
  users : list User.t;
  userSettings : gmap string (gmap string jsval);
  messages : list Message.t;
  events : list Event.t;
  storeFaults : list bool;
  trace : list effect;
  console : list string
}.

Definition with_onlineUsersMap (m : list (string * gset string)) (w : World) : World :=
  mkWorld m (sockets w) (users w) (userSettings w) (messages w) (events w)
          (storeFaults w) (trace w) (console w).
Definition with_sockets (s : gmap string Socket.t) (w : World) : World :=
  mkWorld (onlineUsersMap w) s (users w) (userSettings w) (messages w) (events w)
          (storeFaults w) (trace w) (console w).
Definition with_users (us : list User.t) (w : World) : World :=
  mkWorld (onlineUsersMap w) (sockets w) us (userSettings w) (messages w) (events w)
          (storeFaults w) (trace w) (console w).
Definition with_userSettings (s : gmap string (gmap string jsval)) (w : World) : World :=
  mkWorld (onlineUsersMap w) (sockets w) (users w) s (messages w) (events w)
          (storeFaults w) (trace w) (console w).
Definition with_messages (ms : list Message.t) (w : World) : World :=
  mkWorld (onlineUsersMap w) (sockets w) (users w) (userSettings w) ms (events w)
          (storeFaults w) (trace w) (console w).
Definition with_events (es : list Event.t) (w : World) : World :=
  mkWorld (onlineUsersMap w) (sockets w) (users w) (userSettings w) (messages w) es
          (storeFaults w) (trace w) (console w).
Definition with_storeFaults (fs : list bool) (w : World) : World :=
  mkWorld (onlineUsersMap w) (sockets w) (users w) (userSettings w) (messages w)
          (events w) fs (trace w) (console w).
Definition with_trace (o : list effect) (w : World) : World :=
  mkWorld (onlineUsersMap w) (sockets w) (users w) (userSettings w) (messages w)
          (events w) (storeFaults w) o (console w).
Definition with_console (c : list string) (w : World) : World :=
  mkWorld (onlineUsersMap w) (sockets w) (users w) (userSettings w) (messages w)
          (events w) (storeFaults w) (trace w) c.

(** The server as [initializeSocket] leaves it: an empty registry and no
    sockets, over whatever the database holds. *)
Definition initialWorld (us : list User.t) (ss : gmap string (gmap string jsval))
    (ms : list Message.t) (es : list Event.t) (faults : list bool) : World :=
  mkWorld [] ∅ us ss ms es faults [] [].

(** ** Handlers as computations that may throw *)

Inductive result (A : Type) :=
| Returns (a : A)
| Throws (error : string).
Arguments Returns {A} a.
Arguments Throws {A} error.

Definition M (A : Type) : Type := World → result A * World.

Definition ret {A} (a : A) : M A := λ w, (Returns a, w).

Definition bind {A B} (c : M A) (k : A → M B) : M B :=
  λ w, match c w with
       | (Returns a, w') => k a w'
       | (Throws e, w') => (Throws e, w')
       end.

Definition throw {A} (error : string) : M A := λ w, (Throws error, w).

(** [try { body } catch (error) { handler }]. *)
Definition try_catch (body : M unit) (handler : string → M unit) : M unit :=
  λ w, match body w with
       | (Returns a, w') => (Returns a, w')
       | (Throws e, w') => handler e w'
       end.

Definition gets {A} (f : World → A) : M A := λ w, (Returns (f w), w).
Definition modify (f : World → World) : M unit := λ w, (Returns tt, f w).

Declare Scope handler_scope.
Delimit Scope handler_scope with handler.
Notation "'let!' x ':=' c 'in' k" := (bind c (λ x, k))
  (at level 10, x name, c at level 100, k at level 200) : handler_scope.
Notation "c ';;;' k" := (bind c (λ _, k))
  (at level 100, k at level 200, right associativity) : handler_scope.
Open Scope handler_scope.

(** The world a handler leaves behind. *)
Definition exec {A} (c : M A) (w : World) : World := (c w).2.

(** [await] of a Mongoose call: it rejects when the schedule says so (a
    missing entry means the call succeeds), and consumes that entry. *)
Definition await {A} (call : M A) : M A :=
  λ w, match storeFaults w with
       | [] => call w
       | false :: fs => call (with_storeFaults fs w)
       | true :: fs => (Throws "store call rejected", with_storeFaults fs w)
       end.

Definition console_error (line : string) : M unit :=
  modify (λ w, with_console (console w ++ [line]) w).

Definition record (e : effect) : M unit :=
  modify (λ w, with_trace (trace w ++ [e]) w).

(** [io.emit(event, payload)]. *)
Definition io_emit (event : string) (p : payload) : M unit :=
  record (Emit (mkEmission ToAll event p)).

(** [io.to(room).emit(event, payload)]. *)
Definition io_to_emit (room event : string) (p : payload) : M unit :=
  record (Emit (mkEmission (ToRoom room) event p)).

(** [socket.emit(event, payload)] on the socket with id [socketId]. *)
Definition socket_emit (socketId event : string) (p : payload) : M unit :=
  record (Emit (mkEmission (ToSocket socketId) event p)).

(** The socket object of a connection. *)
Definition socket_of (socketId : string) (w : World) : Socket.t :=
  default (Socket.fresh socketId) (sockets w !! socketId).

(** [socket.userId]. *)
Definition socket_userId (socketId : string) : M (option string) :=
  gets (λ w, Socket.userId (socket_of socketId w)).

(** ** The connection registry *)

(** The socket ids registered for [userId]; none when there is no entry. *)
Definition connections (m : list (string * gset string)) (userId : string) : gset string :=
  default ∅ (JsMap.get userId m).

(** A user is reported online when the registry has an entry for them. *)
Definition isOnline (m : list (string * gset string)) (userId : string) : bool :=
  JsMap.has userId m.

(** Lines 218-221: create the user's set when missing, then add the socket. *)
Definition register (userId socketId : string) (m : list (string * gset string))
    : list (string * gset string) :=
  let m := if negb (JsMap.has userId m) then JsMap.set userId ∅ m else m in
  JsMap.set userId ({[ socketId ]} ∪ connections m userId) m.

(** Lines 261-271: the scan of [onlineUsersMap.entries()].  It stops at the
    first entry whose set holds the socket id, removes the id there, and
    drops the entry when that empties the set.  The result is the new map
    and [disconnectedUserId] ([None] is [null]). *)
Fixpoint unregister_scan (entries m : list (string * gset string)) (socketId : string)
    : list (string * gset string) * option string :=
  match entries with
  | [] => (m, None)
  | (userId, socketSet) :: rest =>
      if decide (socketId ∈ socketSet) then
        let socketSet := socketSet ∖ {[ socketId ]} in
        if decide (size socketSet = 0%nat) then
          (JsMap.delete userId m, Some userId)
        else
          (JsMap.set userId socketSet m, None)
      else unregister_scan rest m socketId
  end.

Definition unregister (socketId : string) (m : list (string * gset string))
    : list (string * gset string) * option string :=
  unregister_scan m m socketId.

(** ** Mongoose calls *)

(** [User.find({ _id: { $in: ids }, showOnlineStatus: true })]. *)
Definition User_find_visible (ids : list string) : M (list User.t) :=
  await (gets (λ w,
    filter (λ u, User._id u ∈ ids ∧ User.showOnlineStatus u = true) (users w))).

(** [User.findByIdAndUpdate(userId, { isOnline, lastSeen })]. *)
Definition User_findByIdAndUpdate (userId : string) (online : bool) (seen : Z) : M unit :=
  await (modify (λ w,
           with_users
             ((λ u, if decide (User._id u = userId)
                    then User.with_presence online seen u else u) <$> users w) w) ;;;
         record (UpdatedUser userId online seen)).

(** [doc.populate(path, 'username profilePicture avatar')] for a path that
    holds a user id: the referenced user, or [null] when there is none. *)
Definition populate (userId : string) : M (option PopulatedUser) :=
  await (gets (λ w,
    (λ u, mkPopulatedUser (User._id u) (User.username u)
            (User.profilePicture u) (User.avatar u))
      <$> (snd <$> list_find (λ u, User._id u = userId) (users w)))).

(** [newUpdate.populate('organizer', 'username profilePicture')]: as
    [populate], but [avatar] is not among the selected fields and stays
    absent. *)
Definition populate_organizer (userId : string) : M (option PopulatedUser) :=
  await (gets (λ w,
    (λ u, mkPopulatedUser (User._id u) (User.username u)
            (User.profilePicture u) None)
      <$> (snd <$> list_find (λ u, User._id u = userId) (users w)))).

(** [newMessage.save()] of a new message. *)
Definition Message_save (m : Message.t) : M unit :=
  await (modify (λ w, with_messages (messages w ++ [m]) w) ;;;
         record (SavedMessage m)).

(** [Event.findById(updateId)]; [None] is [null]. *)
Definition Event_findById (updateId : string) : M (option Event.t) :=
  await (gets (λ w, snd <$> list_find (λ e, Event._id e = updateId) (events w))).

(** Writing a document back: it replaces the stored one with its [_id],
    or is added when the collection has none. *)
Fixpoint store_event (e : Event.t) (es : list Event.t) : list Event.t :=
  match es with
  | [] => [e]
  | e' :: es' =>
      if decide (Event._id e' = Event._id e) then e :: es' else e' :: store_event e es'
  end.

(** [update.save()] and [newUpdate.save()]. *)
Definition Event_save (e : Event.t) : M unit :=
  await (modify (λ w, with_events (store_event e (events w)) w) ;;;
         record (SavedEvent e)).

(** [UserSettings.findOneAndUpdate({ user }, { $set: updatedSettings },
    { new: true, upsert: true })]: the fields given overwrite those stored.
    The settings are kept per owner, the owner being outside the document:
    this is the call for payloads that do not carry a [user] field (which
    [$set] would write into the owner of the document); what the schema of
    [models/UserSettings], which is not in the source, casts or drops is
    not modelled. *)
Definition UserSettings_findOneAndUpdate (user : string)
    (updatedSettings : gmap string jsval) : M (gmap string jsval) :=
  await (let! settings :=
           gets (λ w, updatedSettings ∪ default ∅ (userSettings w !! user)) in
         modify (λ w, with_userSettings (<[user := settings]> (userSettings w)) w) ;;;
         record (UpdatedSettings user settings) ;;;
         ret settings).

(** ** The handlers *)

(** Lines 25-47. *)
Definition emitOnlineUsers : M unit :=
  try_catch
    (let! onlineUserIds := gets (λ w, JsMap.keys (onlineUsersMap w)) in
     let! users := User_find_visible onlineUserIds in
     let usersToShowAsOnline :=
       (λ user, mkOnlineUser (User._id user) (User.username user)
                  (User.profilePicture user) (User.avatar user)
                  (User.isVerified user) (User.isPremium user)) <$> users in
     io_emit "onlineUsers" (POnlineUsers usersToShowAsOnline))
    (λ error, console_error "Error emitting online users:").

(** Lines 57-60. *)
Definition joinUserRoom (socketId userId : string) : M unit :=
  modify (λ w,
    let socket := socket_of socketId w in
    with_sockets
      (<[socketId := Socket.mk (Socket.userId socket) ({[ userId ]} ∪ Socket.rooms socket)]>
         (sockets w)) w).

(** Lines 91-100 and 105-114: a stored picture path becomes an absolute
    URL; a missing or empty one becomes [null]. *)
Definition format_url (path : option string) : option string :=
  if truthy path then
    match path with
    | Some p => if startsWith "http" p then Some p else Some ("http://localhost:5000/" ++ p)
    | None => None
    end
  else None.

Definition format_user (u : PopulatedUser) : PopulatedUser :=
  mkPopulatedUser (pu_id u) (pu_username u)
    (format_url (pu_profilePicture u)) (format_url (pu_avatar u)).

(** The payload of [sendMessage]; [None] stands for a payload that is
    [undefined] or [null], which cannot be destructured. *)
Record SendMessageData := mkSendMessageData { recipientId : string; text : string }.

(** Lines 63-126. *)
Definition sendMessage (socketId : string) (data : option SendMessageData) : M unit :=
  try_catch
    (match data with
     | None => throw "TypeError: cannot destructure"
     | Some data =>
         let! userId := socket_userId socketId in
         if negb (truthy userId) then
           console_error "Message sender not authenticated"
         else
           let userId := default "" userId in
           let newMessage := Message.mk userId (recipientId data) (text data) in
           Message_save newMessage ;;;
           let! sender := populate (Message.sender newMessage) in
           let! recipient := populate (Message.recipient newMessage) in
           let formattedMessage :=
             mkFormattedMessage (format_user <$> sender) (format_user <$> recipient)
               (Message.text newMessage) in
           io_to_emit (recipientId data) "newMessage" (PMessage formattedMessage) ;;;
           io_to_emit userId "messageSent" (PMessage formattedMessage)
     end)
    (λ error,
       console_error "Error in sendMessage:" ;;;
       socket_emit socketId "messageError" (PError "Failed to send message")).

Record CreateUpdateData := mkCreateUpdateData { cu_title : string; cu_description : string }.

(** Lines 129-151.  [newId] is the [_id] Mongoose gives the new document.
    The fields the constructor is not given take the defaults of the
    schema, which the spec states: zero counts and no reactions. *)
Definition createUpdate (socketId newId : string) (data : option CreateUpdateData) : M unit :=
  try_catch
    (let! userId := socket_userId socketId in
     if negb (truthy userId) then
       console_error "Update creator not authenticated"
     else
       let userId := default "" userId in
       match data with
       | None => throw "TypeError: cannot destructure"
       | Some data =>
           let newUpdate :=
             Event.mk newId (cu_title data) (cu_description data) userId 0 0 [] in
           Event_save newUpdate ;;;
           let! organizer := populate_organizer (Event.organizer newUpdate) in
           io_emit "newUpdate" (PNewUpdate newUpdate organizer)
       end)
    (λ error,
       console_error "Error in createUpdate:" ;;;
       socket_emit socketId "updateError" (PError "Failed to create update")).

Record UpdateReactionData := mkUpdateReactionData { updateId : string; reactionType : string }.

(** Lines 153-210. *)
Definition updateReaction (socketId : string) (data : option UpdateReactionData) : M unit :=
  try_catch
    (let! userId := socket_userId socketId in
     if negb (truthy userId) then
       console_error "User not authenticated for reaction"
     else
       let userId := default "" userId in
       match data with
       | None => throw "TypeError: cannot destructure"
       | Some data =>
           let! update := Event_findById (updateId data) in
           match update with
           | None => socket_emit socketId "updateError" (PError "Update not found")
           | Some update =>
               let update := react userId (reactionType data) update in
               Event_save update ;;;
               io_emit "updateReaction" (PUpdate update)
           end
       end)
    (λ error,
       console_error "Error in updateReaction:" ;;;
       socket_emit socketId "updateError" (PError "Failed to react to update")).

(** Lines 212-237.  [now] is [new Date()]. *)
Definition userLogin (socketId userId : string) (now : Z) : M unit :=
  try_catch
    (modify (λ w,
       with_sockets
         (<[socketId := Socket.mk (Some userId) (Socket.rooms (socket_of socketId w))]>
            (sockets w)) w) ;;;
     modify (λ w, with_onlineUsersMap (register userId socketId (onlineUsersMap w)) w) ;;;
     User_findByIdAndUpdate userId true now ;;;
     emitOnlineUsers)
    (λ error, console_error "Error in userLogin:").

(** Lines 241-254. *)
Definition userLogout (socketId userId : string) (now : Z) : M unit :=
  try_catch
    (modify (λ w, with_onlineUsersMap (JsMap.delete userId (onlineUsersMap w)) w) ;;;
     User_findByIdAndUpdate userId false now ;;;
     emitOnlineUsers)
    (λ error, console_error "Error in userLogout:").

(** Lines 256-288. *)
Definition disconnect (socketId : string) (now : Z) : M unit :=
  try_catch
    (let! disconnectedUserId := (λ w,
       let '(m, found) := unregister socketId (onlineUsersMap w) in
       (Returns found, with_onlineUsersMap m w)) in
     if truthy disconnectedUserId then
       User_findByIdAndUpdate (default "" disconnectedUserId) false now ;;;
       emitOnlineUsers
     else ret tt)
    (λ error, console_error "Error in disconnect:").

(** [typeof updatedSettings.showOnlineStatus === 'boolean']. *)
Definition has_boolean_showOnlineStatus (updatedSettings : gmap string jsval) : bool :=
  match updatedSettings !! "showOnlineStatus" with
  | Some (JBool _) => true
  | _ => false
  end.

(** Lines 292-317. *)
Definition updateSettings (socketId : string) (updatedSettings : gmap string jsval) : M unit :=
  try_catch
    (let! userId := socket_userId socketId in
     if negb (truthy userId) then
       console_error "User not authenticated for settings update"
     else
       let! settings := UserSettings_findOneAndUpdate (default "" userId) updatedSettings in
       if has_boolean_showOnlineStatus updatedSettings then emitOnlineUsers else ret tt)
    (λ error, console_error "Error updating settings via socket:").

(** Line 49: a new connection. *)
Definition connection (socketId : string) : M unit :=
  modify (λ w, with_sockets (<[socketId := Socket.fresh socketId]> (sockets w)) w).

(** ** Inbound events *)

Inductive inbound :=
| Connection (socketId : string)
| JoinUserRoom (socketId userId : string)
| SendMessage (socketId : string) (data : option SendMessageData)
| CreateUpdate (socketId newId : string) (data : option CreateUpdateData)
| UpdateReaction (socketId : string) (data : option UpdateReactionData)
| UserLogin (socketId userId : string) (now : Z)
| UserLogout (socketId userId : string) (now : Z)
| Disconnect (socketId : string) (now : Z)
| UpdateSettings (socketId : string) (updatedSettings : gmap string jsval).

Definition handle (ev : inbound) : M unit :=
  match ev with
  | Connection s => connection s
  | JoinUserRoom s u => joinUserRoom s u
  | SendMessage s d => sendMessage s d
  | CreateUpdate s i d => createUpdate s i d
  | UpdateReaction s d => updateReaction s d
  | UserLogin s u t => userLogin s u t
  | UserLogout s u t => userLogout s u t
  | Disconnect s t => disconnect s t
  | UpdateSettings s d => updateSettings s d
  end.

(** The server handles the events one after the other. *)
Definition step (w : World) (ev : inbound) : World := exec (handle ev) w.

Definition run (evs : list inbound) (w : World) : World := foldl step w evs.

(** ** Reading reactions and counts *)

(** The two reaction categories. *)
Definition valid_type (ty : string) : Prop := ty = "like" ∨ ty = "dislike".

(** The category that is not [ty]. *)
Definition other (ty : string) : string :=
  if decide (ty = "like") then "dislike" else "like".

(** The cached count kept for a category: [likes] or [dislikes]. *)
Definition cached (ty : string) (e : Event.t) : Z :=
  if decide (ty = "like") then Event.likes e else Event.dislikes e.

(** The reaction [findIndex] locates for a user, if any. *)
Definition reaction_of (userId : string) (e : Event.t) : option string :=
  (λ found, Reaction.type found.2)
    <$> list_find (λ r, Reaction.user r = userId) (Event.reactions e).

(** The number of reactions of a category in a reaction list. *)
Definition count_type (ty : string) (rs : list Reaction.t) : Z :=
  Z.of_nat (length (filter (λ r, Reaction.type r = ty) rs)).

(** The cached counts agree with the reaction list. *)
Definition counts_consistent (e : Event.t) : Prop :=
  Event.likes e = count_type "like" (Event.reactions e) ∧
  Event.dislikes e = count_type "dislike" (Event.reactions e).

(** Every stored reaction has one of the two categories. *)
Definition well_typed (e : Event.t) : Prop :=
  Forall (λ r, valid_type (Reaction.type r)) (Event.reactions e).

Definition counts_nonneg (e : Event.t) : Prop :=
  0 ≤ Event.likes e ∧ 0 ≤ Event.dislikes e.

(** [Number.isSafeInteger] on an integer: the magnitude is below [2 ^ 53],
    where adding and subtracting 1 on doubles is exact. *)
Definition safe_integer (c : Z) : Prop := - 2 ^ 53 < c < 2 ^ 53.

(** Both cached counts are safe integers. *)
Definition counts_safe (e : Event.t) : Prop :=
  safe_integer (Event.likes e) ∧ safe_integer (Event.dislikes e).

(** The transition table of the reaction toggle, with the way a count is
    decremented left open: [dec] is [λ c, c - 1] in the table as written,
    and [λ c, Z.max 0 (c - 1)] with the clamp. *)
Definition table_step (dec : Z → Z) (userId ty : string) (e e' : Event.t) : Prop :=
  match reaction_of userId e with
  | None =>
      Event.reactions e' = (Event.reactions e ++ [Reaction.mk userId ty])%list ∧
      cached ty e' = cached ty e + 1 ∧
      cached (other ty) e' = cached (other ty) e
  | Some current =>
      if decide (current = ty) then
        (∃ i, Event.reactions e !! i = Some (Reaction.mk userId ty) ∧
              Event.reactions e' = delete i (Event.reactions e)) ∧
        cached ty e' = dec (cached ty e) ∧
        cached (other ty) e' = cached (other ty) e
      else
        (∃ i, Event.reactions e !! i = Some (Reaction.mk userId current) ∧
              Event.reactions e' = <[i := Reaction.mk userId ty]> (Event.reactions e)) ∧
        cached ty e' = cached ty e + 1 ∧
        cached (other ty) e' = dec (cached (other ty) e)
  end.

(** ** Vocabulary of the properties *)

(** *** Registry *)


(** The registry after one inbound event. *)
Definition registry_step (m : list (string * gset string)) (ev : inbound)
    : list (string * gset string) :=
  match ev with
  | UserLogin socketId userId _ => register userId socketId m
  | UserLogout _ userId _ => JsMap.delete userId m
  | Disconnect socketId _ => (unregister socketId m).1
  | _ => m
  end.





(** *** Messages and errors *)

(** The error event a handler sends to its own connection. *)
Definition error_to (socketId event message : string) : effect :=
  Emit (mkEmission (ToSocket socketId) event (PError message)).

(** A delivery of a message: [newMessage] or [messageSent]. *)
Definition is_delivery (e : effect) : Prop :=
  match e with
  | Emit em => em_event em = "newMessage" ∨ em_event em = "messageSent"
  | _ => False
  end.

(** *** Invariants and the program logic *)

(** Every stored update satisfies [Pe]. *)
Definition all_events (Pe : Event.t → Prop) (w : World) : Prop :=
  Forall Pe (events w).

(** [hoare P c Q E]: from a world satisfying [P], the computation [c]
    either returns [a] in a world satisfying [Q a], or throws in a world
    satisfying [E]. *)

Definition hoare {A} (P : World → Prop) (c : M A)
    (Q : A → World → Prop) (E : World → Prop) : Prop :=
  ∀ w, P w →
    match c w with
    | (Returns a, w') => Q a w'
    | (Throws _, w') => E w'
    end.

(** A property of worlds that does not look at the fault schedule, the
    trace or the console. *)
Definition silent (P : World → Prop) : Prop :=
  ∀ w, P w →
    (∀ fs, P (with_storeFaults fs w)) ∧
    (∀ tr, P (with_trace tr w)) ∧
    (∀ c, P (with_console c w)).

(** [c] keeps [I]: it holds afterwards, returning or throwing. *)
Definition keeps {A} (I : World → Prop) (c : M A) : Prop :=
  hoare I c (λ _, I) I.

(** *** Sample data *)

Definition alice : User.t :=
  User.mk "alice" "Alice" (Some "uploads/alice.png") None true false true false 0.
Definition bob : User.t :=
  User.mk "bob" "Bob" None None false false false false 0.
Definition sports_day : Event.t :=
  Event.mk "u1" "Sports day" "Friday" "alice" 0 0 [].

(** The server at start: two users in the store, one update, no faults. *)
Definition campus : World := initialWorld [alice; bob] ∅ [] [sports_day] [].

(** Alice logged in on connection [s1]. *)
Definition campus_online : World :=
  mkWorld [("alice", {[ "s1" ]})]
    {[ "s1" := Socket.mk (Some "alice") {[ "s1" ]} ]}
    [User.with_presence true 1 alice; bob] ∅ [] [sports_day] []
    [UpdatedUser "alice" true 1;
     Emit (mkEmission ToAll "onlineUsers"
       (POnlineUsers
          [mkOnlineUser "alice" "Alice" (Some "uploads/alice.png") None true false]))]
    [].

(** Alice logged in on two connections, [s1] and [s2]. *)
Definition campus_two_devices : World :=
  run [Connection "s2"; UserLogin "s2" "alice" 2] campus_online.

(** An update whose cached [likes] has drifted to 0 under a stored like. *)
Definition drifted_update : Event.t :=
  Event.mk "u1" "Sports day" "Friday" "carol" 0 0 [Reaction.mk "alice" "like"].


(** *** Further vocabulary *)

(** A picture reference as a client can use it: [null], or an absolute URL. *)
Definition absolute_or_null (url : option string) : Prop :=
  match url with
  | None => True
  | Some s => startsWith "http" s = true
  end.

(** The spec's invariant of a reaction list: one reaction per user. *)
Definition one_reaction_per_user (e : Event.t) : Prop :=
  NoDup (Reaction.user <$> Event.reactions e).

(** The stored user with the presence fields blanked: what is left is the
    profile and the visibility preference. *)
Definition profile (u : User.t) : User.t := User.with_presence false 0 u.

(** Events that set or reset the identity of connection [socketId]: a new
    connection under that id, and [userLogin] on it. *)
Definition sets_identity_of (socketId : string) (ev : inbound) : Prop :=
  match ev with
  | Connection s => s = socketId
  | UserLogin s _ _ => s = socketId
  | _ => False
  end.

(** * Properties *)

(** ** The reaction toggle *)

(** *** Lists: updating and counting *)

Lemma alter_as_insert {A} (f : A → A) (l : list A) (i : nat) (x : A) :
  l !! i = Some x → alter f i l = <[i := f x]> l.
Proof.
  revert i. induction l as [|y l IH]; intros [|i] Hi; simplify_eq/=; try done.
  f_equal. by apply IH.
Qed.

Lemma count_type_app ty rs1 rs2 :
  count_type ty (rs1 ++ rs2) = count_type ty rs1 + count_type ty rs2.
Proof. unfold count_type. rewrite filter_app, length_app. lia. Qed.

Lemma count_type_cons ty r rs :
  count_type ty (r :: rs) =
  (if decide (Reaction.type r = ty) then 1 else 0) + count_type ty rs.
Proof.
  unfold count_type. rewrite filter_cons.
  destruct (decide (Reaction.type r = ty)); simpl; lia.
Qed.

Lemma count_type_nonneg ty rs : 0 ≤ count_type ty rs.
Proof. unfold count_type. lia. Qed.

Lemma count_type_delete ty rs i r :
  rs !! i = Some r →
  count_type ty (delete i rs) =
  count_type ty rs - (if decide (Reaction.type r = ty) then 1 else 0).
Proof.
  revert i. induction rs as [|y rs IH]; intros [|i] Hi; simplify_eq/=.
  - rewrite count_type_cons. lia.
  - rewrite !count_type_cons, (IH _ Hi). lia.
Qed.


(** What [react] does to each field, read off its definition. *)
Lemma react_reactions userId ty e :
  Event.reactions (react userId ty e) =
  match list_find (λ r, Reaction.user r = userId) (Event.reactions e) with
  | Some (i, r) =>
      if decide (Reaction.type r = ty) then delete i (Event.reactions e)
      else alter (Reaction.with_type ty) i (Event.reactions e)
  | None => (Event.reactions e ++ [Reaction.mk userId ty])%list
  end.
Proof.
  unfold react. destruct (list_find _ _) as [[i r]|]; repeat case_decide; done.
Qed.

Lemma react_likes userId ty e :
  Event.likes (react userId ty e) =
  match reaction_of userId e with
  | Some current =>
      if decide (ty = "like") then
        if decide (current = ty) then Z.max 0 (Event.likes e - 1) else Event.likes e + 1
      else
        if decide (current = ty) then Event.likes e else Z.max 0 (Event.likes e - 1)
  | None => if decide (ty = "like") then Event.likes e + 1 else Event.likes e
  end.
Proof.
  unfold react, reaction_of.
  destruct (list_find _ _) as [[i r]|]; simpl; repeat case_decide; done.
Qed.

Lemma react_dislikes userId ty e :
  Event.dislikes (react userId ty e) =
  match reaction_of userId e with
  | Some current =>
      if decide (ty = "like") then
        if decide (current = ty) then Event.dislikes e else Z.max 0 (Event.dislikes e - 1)
      else
        if decide (current = ty) then Z.max 0 (Event.dislikes e - 1) else Event.dislikes e + 1
  | None => if decide (ty = "like") then Event.dislikes e else Event.dislikes e + 1
  end.
Proof.
  unfold react, reaction_of.
  destruct (list_find _ _) as [[i r]|]; simpl; repeat case_decide; done.
Qed.

Lemma react_id userId ty e : Event._id (react userId ty e) = Event._id e.
Proof.
  unfold react. destruct (list_find _ _) as [[i r]|]; repeat case_decide; done.
Qed.

(** Two users react to an update without reactions. *)
Example like_then_dislike :
  react "bob" "dislike" (react "alice" "like" sports_day) =
  Event.mk "u1" "Sports day" "Friday" "alice" 1 1
    [Reaction.mk "alice" "like"; Reaction.mk "bob" "dislike"].
Proof. reflexivity. Qed.

(** Switching from like to dislike moves one count to the other. *)
Example switch_like_to_dislike :
  react "alice" "dislike" (react "alice" "like" sports_day) =
  Event.mk "u1" "Sports day" "Friday" "alice" 0 1 [Reaction.mk "alice" "dislike"].
Proof. reflexivity. Qed.

Lemma react_cases userId ty e :
  valid_type ty →
  table_step (λ c, Z.max 0 (c - 1)) userId ty e (react userId ty e).
Proof.
  intros Hty. unfold table_step, cached.
  rewrite react_reactions, react_likes, react_dislikes.
  unfold reaction_of.
  destruct (list_find _ _) as [[i r]|] eqn:Hfind; simpl.
  - apply list_find_Some in Hfind as (Hi & Hu & _).
    destruct r as [u t]; simpl in *; subst u.
    destruct (decide (t = ty)) as [->|Hne].
    + split; [eauto|].
      destruct Hty as [-> | ->]; unfold other; repeat case_decide; simplify_eq; done.
    + split; [exists i; split; [done|]; by rewrite (alter_as_insert _ _ _ _ Hi)|].
      destruct Hty as [-> | ->]; unfold other; repeat case_decide; simplify_eq; done.
  - destruct Hty as [-> | ->]; unfold other; repeat case_decide; simplify_eq; done.
Qed.



(** The toggle keeps the counts non-negative, whatever the category sent. *)
Lemma react_counts_nonneg userId ty e :
  counts_nonneg e → counts_nonneg (react userId ty e).
Proof.
  intros [Hl Hd]. unfold counts_nonneg.
  rewrite react_likes, react_dislikes.
  destruct (reaction_of userId e); repeat case_decide; lia.
Qed.

(** A user without a reaction gets one by reacting. *)
Lemma react_from_none userId ty e :
  reaction_of userId e = None →
  reaction_of userId (react userId ty e) = Some ty ∧
  Event.reactions (react userId ty e) =
    (Event.reactions e ++ [Reaction.mk userId ty])%list.
Proof.
  unfold reaction_of. intros Hnone.
  destruct (list_find _ (Event.reactions e)) as [[i r]|] eqn:Hfind; [done|].
  rewrite react_reactions, Hfind. split; [|done].
  assert (list_find (λ r, Reaction.user r = userId)
            (Event.reactions e ++ [Reaction.mk userId ty])
          = Some (length (Event.reactions e), Reaction.mk userId ty)) as ->; [|done].
  apply list_find_app_Some. right. split; [lia|]. split; [done|].
  rewrite Nat.sub_diag. simpl. by case_decide.
Qed.

(** Reacting twice with the same category gives back the reaction list. *)
Lemma react_twice_reactions userId ty e :
  reaction_of userId e = None →
  Event.reactions (react userId ty (react userId ty e)) = Event.reactions e.
Proof.
  intros Hnone. destruct (react_from_none userId ty e Hnone) as [Hsome Hrs].
  rewrite react_reactions.
  unfold reaction_of in Hsome.
  destruct (list_find _ (Event.reactions (react userId ty e))) as [[i r]|] eqn:Hfind;
    [|done].
  simpl in Hsome. simplify_eq. rewrite decide_True by done.
  apply list_find_Some in Hfind as (Hi & Hu & Hfirst). rewrite Hrs in *.
  unfold reaction_of in Hnone.
  destruct (list_find _ (Event.reactions e)) as [|] eqn:Hnot; [done|].
  apply list_find_None in Hnot.
  assert (i = length (Event.reactions e)) as ->.
  { destruct (decide (i < length (Event.reactions e))%nat) as [Hlt|Hge].
    - rewrite lookup_app_l in Hi by done.
      eapply Forall_lookup_1 in Hnot; eauto. done.
    - apply lookup_lt_Some in Hi. rewrite length_app in Hi. simpl in Hi. lia. }
  clear. induction (Event.reactions e) as [|x l IH]; simpl; [done|]. by f_equal.
Qed.

Lemma reaction_of_reactions userId e e' :
  Event.reactions e = Event.reactions e' → reaction_of userId e = reaction_of userId e'.
Proof. unfold reaction_of. by intros ->. Qed.

(** With consistent counts, a stored reaction of a category makes the
    cached count of that category positive. *)
Lemma cached_positive ty e i userId :
  valid_type ty → counts_consistent e →
  Event.reactions e !! i = Some (Reaction.mk userId ty) →
  1 ≤ cached ty e.
Proof.
  intros Hty [Hl Hd] Hi.
  pose proof (count_type_nonneg ty (delete i (Event.reactions e))) as Hpos.
  rewrite (count_type_delete _ _ _ _ Hi) in Hpos. simpl in Hpos.
  rewrite decide_True in Hpos by done.
  unfold cached. destruct Hty as [-> | ->]; case_decide; simplify_eq; lia.
Qed.

Lemma react_cases_exact userId ty e :
  valid_type ty → well_typed e → counts_consistent e →
  table_step (λ c, c - 1) userId ty e (react userId ty e).
Proof.
  intros Hty Hwt Hcc. pose proof (react_cases userId ty e Hty) as Hstep.
  unfold table_step in *.
  destruct (reaction_of userId e) as [current|]; [|done].
  destruct (decide (current = ty)) as [->|Hne].
  - destruct Hstep as ([i [Hi Hrs]] & Hty' & Hoth). split; [eauto|]. split; [|done].
    pose proof (cached_positive _ _ _ _ Hty Hcc Hi). lia.
  - destruct Hstep as ([i [Hi Hrs]] & Hty' & Hoth). split; [eauto|]. split; [done|].
    assert (Hcur : valid_type current).
    { eapply Forall_lookup_1 in Hwt; eauto. done. }
    assert (current = other ty) as Heq.
    { unfold other. destruct Hty as [-> | ->], Hcur as [-> | ->];
        case_decide; simplify_eq; done. }
    assert (valid_type (other ty)) as Hoty by (by rewrite <- Heq).
    rewrite Heq in Hi.
    pose proof (cached_positive _ _ _ _ Hoty Hcc Hi). lia.
Qed.

(** ** A program logic for handlers *)

Section rules.
Context {A B : Type}.
Implicit Types (P : World → Prop) (E : World → Prop).

Lemma hoare_conseq P P' (c : M A) (Q Q' : A → World → Prop) E E' :
  hoare P' c Q' E' →
  (∀ w, P w → P' w) → (∀ a w, Q' a w → Q a w) → (∀ w, E' w → E w) →
  hoare P c Q E.
Proof.
  intros Hc HP HQ HE w Hw. specialize (Hc w (HP w Hw)).
  destruct (c w) as [[a|e] w']; eauto.
Qed.

Lemma hoare_ret P (a : A) (Q : A → World → Prop) E :
  (∀ w, P w → Q a w) → hoare P (ret a) Q E.
Proof. intros H w Hw. by apply H. Qed.

Lemma hoare_throw P error (Q : A → World → Prop) E :
  (∀ w, P w → E w) → hoare P (throw error) Q E.
Proof. intros H w Hw. by apply H. Qed.

Lemma hoare_gets P (f : World → A) (Q : A → World → Prop) E :
  (∀ w, P w → Q (f w) w) → hoare P (gets f) Q E.
Proof. intros H w Hw. by apply H. Qed.

Lemma hoare_bind P (c : M A) (k : A → M B) R (Q : B → World → Prop) E :
  hoare P c R E → (∀ a, hoare (R a) (k a) Q E) → hoare P (bind c k) Q E.
Proof.
  intros Hc Hk w Hw. unfold bind. specialize (Hc w Hw).
  destruct (c w) as [[a|e] w']; [by apply Hk|done].
Qed.

Lemma hoare_await P (call : M A) (Q : A → World → Prop) E :
  (∀ w fs, P w → P (with_storeFaults fs w)) →
  (∀ w, P w → E w) →
  hoare P call Q E → hoare P (await call) Q E.
Proof.
  intros Hblind HE Hcall w Hw. unfold await.
  destruct (storeFaults w) as [|[] fs]; [by apply Hcall|by apply HE, Hblind|].
  by apply Hcall, Hblind.
Qed.
End rules.

Lemma hoare_pure {A} P (φ : Prop) (c : M A) (Q : A → World → Prop) E :
  (φ → hoare P c Q E) → hoare (λ w, P w ∧ φ) c Q E.
Proof. intros H w [Hw Hφ]. by apply H. Qed.

Lemma hoare_modify P (f : World → World) (Q : unit → World → Prop) E :
  (∀ w, P w → Q tt (f w)) → hoare P (modify f) Q E.
Proof. intros H w Hw. by apply H. Qed.

Lemma hoare_try_catch P (body : M unit) (handler : string → M unit)
    (Q : unit → World → Prop) R E :
  hoare P body Q R → (∀ error, hoare R (handler error) Q E) →
  hoare P (try_catch body handler) Q E.
Proof.
  intros Hb Hh w Hw. unfold try_catch. specialize (Hb w Hw).
  destruct (body w) as [[[]|e] w']; [done|by apply Hh].
Qed.

Lemma keeps_pure {A} I (φ : Prop) (c : M A) :
  (φ → keeps I c) → hoare (λ w, I w ∧ φ) c (λ _, I) I.
Proof. apply hoare_pure. Qed.

Lemma keeps_exec {A} I (c : M A) w : keeps I c → I w → I (exec c w).
Proof.
  intros Hc Hw. specialize (Hc w Hw). unfold exec.
  by destruct (c w) as [[a|e] w'].
Qed.

Lemma keeps_ret {A} I (a : A) : keeps I (ret a).
Proof. by apply hoare_ret. Qed.

Lemma keeps_throw {A} I error : keeps I (@throw A error).
Proof. by apply hoare_throw. Qed.

Lemma keeps_gets {A} I (f : World → A) : keeps I (gets f).
Proof. by apply hoare_gets. Qed.

Lemma keeps_modify I f : (∀ w, I w → I (f w)) → keeps I (modify f).
Proof. intros. by apply hoare_modify. Qed.

Lemma keeps_bind {A B} I (c : M A) (k : A → M B) :
  keeps I c → (∀ a, keeps I (k a)) → keeps I (bind c k).
Proof. intros Hc Hk. eapply hoare_bind; [exact Hc|exact Hk]. Qed.

Lemma keeps_try_catch I body handler :
  keeps I body → (∀ error, keeps I (handler error)) → keeps I (try_catch body handler).
Proof. intros Hb Hh. eapply hoare_try_catch; [exact Hb|exact Hh]. Qed.

Lemma keeps_await {A} I (call : M A) :
  silent I → keeps I call → keeps I (await call).
Proof.
  intros HI Hc. apply hoare_await; [|done|done].
  intros w fs Hw. by apply HI.
Qed.

Lemma keeps_console_error I line : silent I → keeps I (console_error line).
Proof. intros HI. apply keeps_modify. intros w Hw. by apply HI. Qed.

Lemma keeps_record I e : silent I → keeps I (record e).
Proof. intros HI. apply keeps_modify. intros w Hw. by apply HI. Qed.

Lemma keeps_if {A} I (b : bool) (c1 c2 : M A) :
  keeps I c1 → keeps I c2 → keeps I (if b then c1 else c2).
Proof. by destruct b. Qed.

(** Walks a handler body with the rules above; what is left are the
    state updates and the calls the invariant has to be checked on. *)
Ltac keeps_walk :=
  repeat lazymatch goal with
  | |- keeps _ (try_catch _ _) => apply keeps_try_catch; [|intros ?]
  | |- keeps _ (bind _ _) => apply keeps_bind; [|intros ?]
  | |- keeps _ (await _) => apply keeps_await; [assumption|]
  | |- keeps _ (console_error _) => apply keeps_console_error; assumption
  | |- keeps _ (record _) => apply keeps_record; assumption
  | |- keeps _ (io_emit _ _) => apply keeps_record; assumption
  | |- keeps _ (io_to_emit _ _ _) => apply keeps_record; assumption
  | |- keeps _ (socket_emit _ _ _) => apply keeps_record; assumption
  | |- keeps _ (ret _) => apply keeps_ret
  | |- keeps _ (throw _) => apply keeps_throw
  | |- keeps _ (gets _) => apply keeps_gets
  | |- keeps _ (socket_userId _) => apply keeps_gets
  | |- keeps _ (if ?b then _ else _) => destruct b
  | |- keeps _ (match ?x with _ => _ end) => destruct x
  | |- keeps _ (modify _) => apply keeps_modify; intros ? ?
  end.

(** *** Invariants of the stored updates *)

Lemma all_events_silent Pe : silent (all_events Pe).
Proof. intros w Hw. by repeat split. Qed.

Lemma Forall_store_event (Pe : Event.t → Prop) e es :
  Pe e → Forall Pe es → Forall Pe (store_event e es).
Proof.
  intros He. induction 1 as [|e' es He' Hes IH]; simpl.
  - by apply Forall_singleton.
  - case_decide; constructor; done.
Qed.

Section events_invariant.
Variable Pe : Event.t → Prop.
Let I := all_events Pe.
Let I_silent : silent I := all_events_silent Pe.

Lemma all_events_emitOnlineUsers : keeps I emitOnlineUsers.
Proof using All. unfold emitOnlineUsers, User_find_visible. keeps_walk. Qed.

Lemma all_events_findByIdAndUpdate userId online seen :
  keeps I (User_findByIdAndUpdate userId online seen).
Proof using All. unfold User_findByIdAndUpdate. keeps_walk. done. Qed.

Lemma all_events_populate userId : keeps I (populate userId).
Proof using All. unfold populate. keeps_walk. Qed.

Lemma all_events_populate_organizer userId : keeps I (populate_organizer userId).
Proof using All. unfold populate_organizer. keeps_walk. Qed.

Lemma all_events_Event_save e : Pe e → keeps I (Event_save e).
Proof using All.
  intros He. unfold Event_save. keeps_walk. by apply Forall_store_event.
Qed.

(** [Event.findById] returns one of the stored updates. *)
Lemma all_events_Event_findById updateId :
  hoare I (Event_findById updateId)
    (λ update w, I w ∧ ∀ e, update = Some e → Pe e) I.
Proof using All.
  unfold Event_findById. apply hoare_await; [intros; by apply I_silent|done|].
  apply hoare_gets. intros w Hw. split; [done|]. intros e He.
  destruct (list_find _ _) as [[i e']|] eqn:Hfind; simplify_eq/=.
  apply list_find_Some in Hfind as (Hi & _ & _).
  eapply Forall_lookup_1; eauto.
Qed.

Lemma all_events_sendMessage socketId data : keeps I (sendMessage socketId data).
Proof using All.
  unfold sendMessage, Message_save.
  keeps_walk; try done; apply all_events_populate.
Qed.

Lemma all_events_createUpdate socketId newId data :
  (∀ d userId, data = Some d →
     Pe (Event.mk newId (cu_title d) (cu_description d) userId 0 0 [])) →
  keeps I (createUpdate socketId newId data).
Proof using All.
  intros Hnew. unfold createUpdate.
  keeps_walk; try done;
    [by apply all_events_Event_save, Hnew|apply all_events_populate_organizer].
Qed.

Lemma all_events_updateReaction socketId data :
  (∀ d userId e, data = Some d → Pe e → Pe (react userId (reactionType d) e)) →
  keeps I (updateReaction socketId data).
Proof using All.
  intros Hreact. unfold updateReaction.
  apply keeps_try_catch; [|intros; keeps_walk].
  apply keeps_bind; [keeps_walk|intros userId].
  destruct (negb _); [keeps_walk|].
  destruct data as [d|]; [|keeps_walk].
  eapply hoare_bind; [apply all_events_Event_findById|].
  intros [e|]; apply keeps_pure; intros He.
  - keeps_walk. by apply all_events_Event_save, Hreact, He.
  - keeps_walk.
Qed.

Lemma all_events_userLogin socketId userId now : keeps I (userLogin socketId userId now).
Proof using All.
  unfold userLogin.
  keeps_walk; try done;
    [apply all_events_findByIdAndUpdate|apply all_events_emitOnlineUsers].
Qed.

Lemma all_events_userLogout socketId userId now : keeps I (userLogout socketId userId now).
Proof using All.
  unfold userLogout.
  keeps_walk; try done;
    [apply all_events_findByIdAndUpdate|apply all_events_emitOnlineUsers].
Qed.

Lemma all_events_disconnect socketId now : keeps I (disconnect socketId now).
Proof using All.
  unfold disconnect.
  apply keeps_try_catch; [|intros; keeps_walk].
  apply keeps_bind.
  - intros w Hw. by destruct (unregister _ _).
  - intros found.
    keeps_walk; [apply all_events_findByIdAndUpdate|apply all_events_emitOnlineUsers].
Qed.

Lemma all_events_updateSettings socketId updatedSettings :
  keeps I (updateSettings socketId updatedSettings).
Proof using All.
  unfold updateSettings, UserSettings_findOneAndUpdate.
  keeps_walk; try done; apply all_events_emitOnlineUsers.
Qed.

(** Every handler keeps an invariant of the stored updates that new
    updates satisfy and the toggle keeps. *)
Lemma all_events_handle ev :
  (∀ newId title description userId,
     Pe (Event.mk newId title description userId 0 0 [])) →
  (∀ socketId d userId e,
     ev = UpdateReaction socketId (Some d) → Pe e →
     Pe (react userId (reactionType d) e)) →
  keeps I (handle ev).
Proof using All.
  intros Hnew Hreact. destruct ev; simpl.
  - unfold connection. by keeps_walk.
  - unfold joinUserRoom. by keeps_walk.
  - apply all_events_sendMessage.
  - apply all_events_createUpdate. intros; apply Hnew.
  - apply all_events_updateReaction. intros d u e -> He. by eapply Hreact.
  - apply all_events_userLogin.
  - apply all_events_userLogout.
  - apply all_events_disconnect.
  - apply all_events_updateSettings.
Qed.
End events_invariant.

(** ** Claims about the reaction toggle *)

(** C1, as stated, fails: on [drifted_update] the user's like is removed but
    [likes] stays 0 instead of decreasing by 1. *)
Lemma react_table_unclamped_fails :
  valid_type "like" ∧
  ¬ table_step (λ c, c - 1) "alice" "like" drifted_update
      (react "alice" "like" drifted_update).
Proof.
  split; [by left|]. unfold table_step. simpl. intros (_ & Hlikes & _).
  vm_compute in Hlikes. discriminate.
Qed.

(** C1 (amended): for every update whose cached counts are safe integers,
    every user and every category (like or dislike), [react] follows the
    transition table with each decrement clamped at 0: no reaction - the
    reaction is appended and its count goes up by 1; same category - the
    reaction is removed and its count becomes [max 0 (count - 1)]; other
    category - the reaction is switched, the requested count goes up by 1
    and the other becomes [max 0 (count - 1)].  When moreover every stored
    reaction is a like or a dislike and the cached counts equal the
    per-category reaction counts, the decrements are exactly 1.  From no
    reaction, reacting like twice gives back no reaction, and a third time
    gives like. *)
Theorem react_follows_clamped_table userId ty e :
  valid_type ty →
  (counts_safe e →
   table_step (λ c, Z.max 0 (c - 1)) userId ty e (react userId ty e) ∧
   (well_typed e → counts_consistent e →
    table_step (λ c, c - 1) userId ty e (react userId ty e))) ∧
  (reaction_of userId e = None →
   reaction_of userId (react userId "like" e) = Some "like" ∧
   reaction_of userId (react userId "like" (react userId "like" e)) = None ∧
   reaction_of userId
     (react userId "like" (react userId "like" (react userId "like" e))) = Some "like").
Proof.
  intros Hty. split.
  { intros _. split; [by apply react_cases|by apply react_cases_exact]. }
  intros Hnone.
  assert (reaction_of userId (react userId "like" (react userId "like" e)) = None) as H2.
  { rewrite <- Hnone. apply reaction_of_reactions. by apply react_twice_reactions. }
  split; [by apply react_from_none|]. split; [done|]. by apply react_from_none.
Qed.

Lemma react_follows_clamped_table_witness :
  valid_type "dislike" ∧ counts_safe drifted_update ∧
  table_step (λ c, Z.max 0 (c - 1)) "alice" "dislike" drifted_update
    (react "alice" "dislike" drifted_update).
Proof.
  assert (valid_type "dislike") as Hty by (by right).
  assert (counts_safe drifted_update) as Hsafe by (repeat split; reflexivity).
  split; [exact Hty|]. split; [exact Hsafe|].
  exact (proj1 (proj1 (react_follows_clamped_table "alice" "dislike" drifted_update Hty)
                  Hsafe)).
Defined.



(** C8: starting from non-negative counts, consistent with the reaction lists
    or not, no sequence of reactions makes [likes] or [dislikes] negative;
    nor does any sequence of inbound events on the server. *)
Theorem counts_never_negative e (ops : list (string * string)) w evs :
  counts_nonneg e →
  all_events counts_nonneg w →
  counts_nonneg (foldl (λ e op, react op.1 op.2 e) e ops) ∧
  all_events counts_nonneg (run evs w).
Proof.
  intros He Hw. split.
  - revert e He. induction ops as [|[u ty] ops IH]; intros e He; simpl; [done|].
    by apply IH, react_counts_nonneg.
  - revert w Hw. induction evs as [|ev evs IH]; intros w Hw; simpl; [done|].
    apply IH. unfold step. apply keeps_exec; [|done].
    apply all_events_handle.
    + intros. split; simpl; lia.
    + intros. by apply react_counts_nonneg.
Qed.

(** ** Running handlers on a given world *)

(** Unfolds the handler combinators, to run a handler by computation. *)
Ltac unfold_handler :=
  cbv beta iota zeta delta
    [exec try_catch bind await gets modify ret throw console_error
     io_emit io_to_emit socket_emit record socket_userId
     User_find_visible User_findByIdAndUpdate populate populate_organizer Message_save
     Event_findById Event_save UserSettings_findOneAndUpdate].

(** ** The JavaScript [Map] *)

Section jsmap_facts.
Context {V : Type}.
Implicit Types (m : list (string * V)) (k : string) (v : V).

Lemma get_set_eq k v m : JsMap.get k (JsMap.set k v m) = Some v.
Proof.
  induction m as [|[k' v'] m IH]; simpl.
  - by rewrite decide_True.
  - destruct (decide (k' = k)) as [->|Hne]; simpl.
    + by rewrite decide_True.
    + by rewrite decide_False.
Qed.


Lemma get_delete_eq k m : JsMap.get k (JsMap.delete k m) = None.
Proof.
  induction m as [|[k0 v0] m IH]; simpl; [done|].
  destruct (decide (k0 = k)) as [->|Hne]; simpl; [done|]. by rewrite decide_False.
Qed.



Lemma get_None_keys k m : JsMap.get k m = None ↔ k ∉ JsMap.keys m.
Proof.
  unfold JsMap.keys. induction m as [|[k0 v0] m IH]; simpl.
  - split; [intros _; apply not_elem_of_nil|done].
  - rewrite not_elem_of_cons. destruct (decide (k0 = k)) as [->|Hne].
    + split; [done|]. by intros [? _].
    + rewrite IH. split; [by split|by intros [_ ?]].
Qed.






Lemma set_set k v v' m : JsMap.set k v (JsMap.set k v' m) = JsMap.set k v m.
Proof.
  induction m as [|[k0 v0] m IH]; simpl.
  - by rewrite decide_True.
  - destruct (decide (k0 = k)) as [->|Hne]; simpl.
    + by rewrite decide_True.
    + by rewrite decide_False, IH.
Qed.


End jsmap_facts.

(** ** The connection registry *)


Lemma connections_set_eq u S m : connections (JsMap.set u S m) u = S.
Proof. unfold connections. by rewrite get_set_eq. Qed.




(** Registering is one [set] of the user's enlarged connection set. *)
Lemma register_as_set u s m :
  register u s m = JsMap.set u ({[ s ]} ∪ connections m u) m.
Proof.
  unfold register, JsMap.has, connections.
  destruct (JsMap.get u m) eqn:Hget; simpl.
  - by rewrite Hget.
  - by rewrite get_set_eq, set_set.
Qed.

Lemma connections_register_eq u s m :
  connections (register u s m) u = {[ s ]} ∪ connections m u.
Proof. by rewrite register_as_set, connections_set_eq. Qed.




(** The scan acts on the first entry that holds the socket id. *)
Lemma unregister_scan_find entries m s :
  unregister_scan entries m s =
  match list_find (λ entry, s ∈ entry.2) entries with
  | Some (_, (userId, socketSet)) =>
      if decide (size (socketSet ∖ {[ s ]}) = 0%nat)
      then (JsMap.delete userId m, Some userId)
      else (JsMap.set userId (socketSet ∖ {[ s ]}) m, None)
  | None => (m, None)
  end.
Proof.
  induction entries as [|[u S] entries IH]; simpl; [done|].
  destruct (decide (s ∈ S)) as [Hin|Hnotin]; simpl; [done|].
  rewrite IH. by destruct (list_find _ entries) as [[i [u' S']]|].
Qed.






(** *** What the handlers do to the registry *)

Section registry_invariant.
Variable J : list (string * gset string) → Prop.
Let I (w : World) : Prop := J (onlineUsersMap w).

Lemma registry_silent : silent I.
Proof using Type. intros w Hw. by repeat split. Qed.
Let I_silent := registry_silent.

Lemma registry_emitOnlineUsers : keeps I emitOnlineUsers.
Proof using All. unfold emitOnlineUsers, User_find_visible. keeps_walk. Qed.

Lemma registry_findByIdAndUpdate userId online seen :
  keeps I (User_findByIdAndUpdate userId online seen).
Proof using All. unfold User_findByIdAndUpdate. keeps_walk. done. Qed.

Lemma registry_populate userId : keeps I (populate userId).
Proof using All. unfold populate. keeps_walk. Qed.

Lemma registry_populate_organizer userId : keeps I (populate_organizer userId).
Proof using All. unfold populate_organizer. keeps_walk. Qed.

Lemma registry_sendMessage socketId data : keeps I (sendMessage socketId data).
Proof using All.
  unfold sendMessage, Message_save.
  keeps_walk; try done; apply registry_populate.
Qed.

Lemma registry_createUpdate socketId newId data :
  keeps I (createUpdate socketId newId data).
Proof using All.
  unfold createUpdate, Event_save.
  keeps_walk; try done; apply registry_populate_organizer.
Qed.

Lemma registry_updateReaction socketId data : keeps I (updateReaction socketId data).
Proof using All.
  unfold updateReaction, Event_save, Event_findById. keeps_walk; done.
Qed.

Lemma registry_updateSettings socketId updatedSettings :
  keeps I (updateSettings socketId updatedSettings).
Proof using All.
  unfold updateSettings, UserSettings_findOneAndUpdate.
  keeps_walk; try done; apply registry_emitOnlineUsers.
Qed.

(** Marking the user and broadcasting, the tail of the presence handlers. *)
Lemma registry_mark_and_emit userId online seen :
  keeps I (User_findByIdAndUpdate userId online seen ;;; emitOnlineUsers).
Proof using All.
  keeps_walk; [apply registry_findByIdAndUpdate|apply registry_emitOnlineUsers].
Qed.
End registry_invariant.

Lemma hoare_exec {A} (P Q : World → Prop) (c : M A) w :
  hoare P c (λ _, Q) Q → P w → Q (exec c w).
Proof.
  intros Hc Hw. specialize (Hc w Hw). unfold exec.
  by destruct (c w) as [[a|e] w'].
Qed.

(** [userLogin] registers the connection, whatever the store does. *)
Lemma userLogin_registry socketId userId now w :
  onlineUsersMap (exec (userLogin socketId userId now) w) =
  register userId socketId (onlineUsersMap w).
Proof.
  set (m := onlineUsersMap w).
  apply (hoare_exec (λ w, onlineUsersMap w = m)
           (λ w, onlineUsersMap w = register userId socketId m)); [|done].
  unfold userLogin.
  eapply hoare_try_catch;
    [|intros; apply (keeps_console_error _ _ (registry_silent (λ m', m' = _)))].
  eapply hoare_bind with (R := λ _ w, onlineUsersMap w = m);
    [apply hoare_modify; intros w' Hw'; exact Hw'|intros _].
  eapply hoare_bind with (R := λ _ w, onlineUsersMap w = register userId socketId m);
    [apply hoare_modify; intros w' Hw'; simpl; by rewrite Hw'|intros _].
  apply (registry_mark_and_emit (λ m', m' = register userId socketId m)).
Qed.

(** [userLogout] deletes the user's entry, whatever the store does. *)
Lemma userLogout_registry socketId userId now w :
  onlineUsersMap (exec (userLogout socketId userId now) w) =
  JsMap.delete userId (onlineUsersMap w).
Proof.
  set (m := onlineUsersMap w).
  apply (hoare_exec (λ w, onlineUsersMap w = m)
           (λ w, onlineUsersMap w = JsMap.delete userId m)); [|done].
  unfold userLogout.
  eapply hoare_try_catch;
    [|intros; apply (keeps_console_error _ _ (registry_silent (λ m', m' = _)))].
  eapply hoare_bind with (R := λ _ w, onlineUsersMap w = JsMap.delete userId m);
    [apply hoare_modify; intros w' Hw'; simpl; by rewrite Hw'|intros _].
  apply (registry_mark_and_emit (λ m', m' = JsMap.delete userId m)).
Qed.

(** [disconnect] runs the scan on the registry, whatever the store does. *)
Lemma disconnect_registry socketId now w :
  onlineUsersMap (exec (disconnect socketId now) w) =
  (unregister socketId (onlineUsersMap w)).1.
Proof.
  set (m := onlineUsersMap w).
  apply (hoare_exec (λ w, onlineUsersMap w = m)
           (λ w, onlineUsersMap w = (unregister socketId m).1)); [|done].
  unfold disconnect.
  eapply hoare_try_catch;
    [|intros; apply (keeps_console_error _ _ (registry_silent (λ m', m' = _)))].
  eapply hoare_bind with (R := λ _ w, onlineUsersMap w = (unregister socketId m).1).
  - intros w' Hw'. rewrite Hw'. by destruct (unregister socketId m).
  - intros found. destruct (truthy found).
    + apply (registry_mark_and_emit (λ m', m' = (unregister socketId m).1)).
    + by apply hoare_ret.
Qed.

Lemma step_registry w ev :
  onlineUsersMap (step w ev) = registry_step (onlineUsersMap w) ev.
Proof.
  unfold step. destruct ev; simpl;
    try (set (m := onlineUsersMap w);
         apply (keeps_exec (λ w, onlineUsersMap w = m)); [|done]).
  - unfold connection. by keeps_walk.
  - unfold joinUserRoom. by keeps_walk.
  - apply (registry_sendMessage (λ m', m' = m)).
  - apply (registry_createUpdate (λ m', m' = m)).
  - apply (registry_updateReaction (λ m', m' = m)).
  - apply userLogin_registry.
  - apply userLogout_registry.
  - apply disconnect_registry.
  - apply (registry_updateSettings (λ m', m' = m)).
Qed.

Lemma run_registry w evs :
  onlineUsersMap (run evs w) = foldl registry_step (onlineUsersMap w) evs.
Proof.
  revert w. induction evs as [|ev evs IH]; intros w; simpl; [done|].
  by rewrite IH, step_registry.
Qed.



(** On an authenticated connection, with the store answering and the
    update found, [updateReaction] stores the toggled update and broadcasts
    it: the handler is [react] on the stored document. *)
Lemma updateReaction_applies_react w socketId d userId i update :
  Socket.userId (socket_of socketId w) = Some userId →
  userId ≠ "" →
  storeFaults w = [] →
  list_find (λ e, Event._id e = updateId d) (events w) = Some (i, update) →
  let update' := react userId (reactionType d) update in
  let w' := exec (updateReaction socketId (Some d)) w in
  events w' = store_event update' (events w) ∧
  trace w' =
    (trace w ++ [SavedEvent update';
                 Emit (mkEmission ToAll "updateReaction" (PUpdate update'))])%list.
Proof.
  intros Hu Hne Hfaults Hfind. unfold updateReaction. unfold_handler.
  rewrite Hu. simpl.
  destruct (String.eqb_spec userId "") as [|_]; [done|]. simpl.
  destruct w as [reg socks us sets msgs evs faults tr con].
  simpl in *. subst faults. rewrite Hfind. simpl.
  by rewrite <- app_assoc.
Qed.

(** ** Claims about unauthenticated connections *)

(** C4, as stated, fails: [sendMessage] on a connection without a user
    identity emits nothing, so no error event reaches that connection. *)
Lemma unauthenticated_sendMessage_sends_no_error :
  truthy (Socket.userId (socket_of "s1" campus)) = false ∧
  ¬ ∃ event p,
      Emit (mkEmission (ToSocket "s1") event p)
        ∈ trace (exec (sendMessage "s1" (Some (mkSendMessageData "bob" "hi"))) campus).
Proof.
  split; [reflexivity|]. intros (event & p & Hin).
  vm_compute in Hin. by apply elem_of_nil in Hin.
Qed.

(** C4 (amended): on a connection with no user identity ([socket.userId]
    unset or empty), [sendMessage] (given a payload object), [createUpdate]
    and [updateReaction] write one line to the server's error log and do
    nothing else: nothing is persisted and no event, error events included,
    is emitted to any connection. *)
Theorem unauthenticated_handlers_only_log w socketId sm newId cu ur :
  truthy (Socket.userId (socket_of socketId w)) = false →
  exec (sendMessage socketId (Some sm)) w =
    with_console (console w ++ ["Message sender not authenticated"]) w ∧
  exec (createUpdate socketId newId cu) w =
    with_console (console w ++ ["Update creator not authenticated"]) w ∧
  exec (updateReaction socketId ur) w =
    with_console (console w ++ ["User not authenticated for reaction"]) w.
Proof.
  intros Hu. unfold sendMessage, createUpdate, updateReaction.
  unfold_handler. by rewrite Hu.
Qed.

Lemma unauthenticated_handlers_only_log_witness :
  trace (exec (updateReaction "s1" (Some (mkUpdateReactionData "u1" "like"))) campus) = [] ∧
  events (exec (updateReaction "s1" (Some (mkUpdateReactionData "u1" "like"))) campus)
    = [sports_day].
Proof.
  destruct (unauthenticated_handlers_only_log campus "s1"
              (mkSendMessageData "bob" "hi") "u2" None
              (Some (mkUpdateReactionData "u1" "like")) eq_refl) as (_ & _ & ->).
  split; reflexivity.
Defined.

(** ** Claims about the message relay *)

(** What [sendMessage] can leave behind on an authenticated connection. *)
Lemma sendMessage_outcomes w socketId d :
  truthy (Socket.userId (socket_of socketId w)) = true →
  let userId := default "" (Socket.userId (socket_of socketId w)) in
  let m := Message.mk userId (recipientId d) (text d) in
  let w' := exec (sendMessage socketId (Some d)) w in
  let error := error_to socketId "messageError" "Failed to send message" in
  (head (storeFaults w) = Some true ∧ messages w' = messages w ∧
   trace w' = (trace w ++ [error])%list) ∨
  (head (storeFaults w) ≠ Some true ∧ (messages w' = messages w ++ [m])%list ∧
   (trace w' = (trace w ++ [SavedMessage m; error])%list ∨
    ∃ fm, trace w' =
      (trace w ++ [SavedMessage m;
                   Emit (mkEmission (ToRoom (recipientId d)) "newMessage" (PMessage fm));
                   Emit (mkEmission (ToRoom userId) "messageSent" (PMessage fm))])%list)).
Proof.
  intros Hu. unfold sendMessage. unfold_handler. rewrite Hu.
  generalize (Socket.userId (socket_of socketId w)). intros userId.
  destruct w as [reg socks us sets msgs evs faults tr con].
  destruct faults as [|[] [|[] [|[] fs]]]; simpl;
    rewrite <- ?app_assoc; simpl;
    first [ left; repeat split; done
          | right; split; [done|]; split; [done|]; eauto ].
Qed.

(** C7: on an authenticated connection, every [newMessage] or [messageSent]
    emission of [sendMessage] comes after the message has been saved, and
    when the save is rejected nothing is stored or delivered and the only
    emission is [messageError] to the sending connection. *)
Theorem sendMessage_saves_before_delivery w socketId d :
  truthy (Socket.userId (socket_of socketId w)) = true →
  let userId := default "" (Socket.userId (socket_of socketId w)) in
  let m := Message.mk userId (recipientId d) (text d) in
  let w' := exec (sendMessage socketId (Some d)) w in
  ∃ tr, trace w' = (trace w ++ tr)%list ∧
    (∀ before e after, tr = (before ++ e :: after)%list → is_delivery e →
       SavedMessage m ∈ before ∧ m ∈ messages w') ∧
    (head (storeFaults w) = Some true →
       messages w' = messages w ∧
       tr = [error_to socketId "messageError" "Failed to send message"]).
Proof.
  intros Hu userId m w'.
  destruct (sendMessage_outcomes w socketId d Hu)
    as [(Hfault & Hmsgs & Htr) | (Hfault & Hmsgs & [Htr | [fm Htr]])];
    fold userId m w' in Hmsgs, Htr; eexists; (split; [exact Htr|]).
  - split; [|done]. intros [|e0 [|e1 pre]] e post [=]; subst; by intros [].
  - split; [|done]. intros [|e0 [|e1 [|e2 pre]]] e post [=]; subst; by intros [].
  - split; [|done].
    assert (m ∈ messages w') as Hin.
    { rewrite Hmsgs. apply elem_of_app. right. left. }
    intros [|e0 [|e1 [|e2 [|e3 pre]]]] e post [=]; subst;
      first [by intros [] | intros _; split; [left|done]].
Qed.

(** ** Claims about presence *)

Lemma isOnline_register u s m : isOnline (register u s m) u = true.
Proof. unfold isOnline, JsMap.has. by rewrite register_as_set, get_set_eq. Qed.

Lemma elem_of_connections_register u s m : s ∈ connections (register u s m) u.
Proof.
  rewrite connections_register_eq. apply elem_of_union. left.
  by apply elem_of_singleton.
Qed.

(** C10: [userLogin] registers the connection before it awaits the store
    write; when that write is rejected the registration stays, nothing is
    written or emitted, and the handler only logs.  The registry then
    reports the user online although the stored status was not updated. *)
Theorem userLogin_failed_write_keeps_registration w socketId userId now fs :
  storeFaults w = true :: fs →
  let w' := exec (userLogin socketId userId now) w in
  onlineUsersMap w' = register userId socketId (onlineUsersMap w) ∧
  socketId ∈ connections (onlineUsersMap w') userId ∧
  isOnline (onlineUsersMap w') userId = true ∧
  users w' = users w ∧
  trace w' = trace w ∧
  console w' = (console w ++ ["Error in userLogin:"])%list.
Proof.
  intros Hfault w'. unfold w'. rewrite userLogin_registry.
  split; [done|]. split; [apply elem_of_connections_register|].
  split; [apply isOnline_register|].
  unfold userLogin. unfold_handler.
  destruct w as [reg socks us sets msgs evs faults tr con].
  simpl in Hfault. subst faults. done.
Qed.





(** C5 fails on the code: a connection that sends [userLogin] for two users
    is held by both.  [disconnect], which stops at the first entry holding the
    socket id, then frees only the first, and the second user stays online
    with a connection that no longer exists. *)
Theorem userLogin_twice_has_two_owners :
  let w := run [Connection "s1"; UserLogin "s1" "alice" 1; UserLogin "s1" "bob" 2]
             campus in
  let w' := run [Disconnect "s1" 3] w in
  connections (onlineUsersMap w) "alice" = {[ "s1" ]} ∧
  connections (onlineUsersMap w) "bob" = {[ "s1" ]} ∧
  onlineUsersMap w' = [("bob", {[ "s1" ]})] ∧
  isOnline (onlineUsersMap w') "bob" = true.
Proof. vm_compute. repeat split; reflexivity. Qed.

(** [emitOnlineUsers] broadcasts the stored users that have a registry entry
    and whose [User] document has [showOnlineStatus] set. *)
Lemma emitOnlineUsers_snapshot w :
  head (storeFaults w) ≠ Some true →
  trace (exec emitOnlineUsers w) =
  (trace w ++
   [Emit (mkEmission ToAll "onlineUsers"
      (POnlineUsers
         ((λ user, mkOnlineUser (User._id user) (User.username user)
                     (User.profilePicture user) (User.avatar user)
                     (User.isVerified user) (User.isPremium user))
          <$> filter (λ u, User._id u ∈ JsMap.keys (onlineUsersMap w) ∧
                           User.showOnlineStatus u = true) (users w))))])%list.
Proof.
  intros Hfault. unfold emitOnlineUsers. unfold_handler.
  destruct w as [reg socks us sets msgs evs faults tr con].
  by destruct faults as [|[] fs].
Qed.

(** C3 fails on the code: [updateSettings] writes [showOnlineStatus] to the
    [UserSettings] collection, while the broadcast filters on the field of
    the [User] document.  Alice, online and visible, turns her visibility
    off; the broadcast this triggers still lists her. *)
Theorem updateSettings_does_not_hide_user :
  let w := run [Connection "s1"; UserLogin "s1" "alice" 1] campus in
  let w' := exec (updateSettings "s1" {[ "showOnlineStatus" := JBool false ]}) w in
  userSettings w' !! "alice" = Some {[ "showOnlineStatus" := JBool false ]} ∧
  last (trace w') =
    Some (Emit (mkEmission ToAll "onlineUsers"
            (POnlineUsers
               [mkOnlineUser "alice" "Alice" (Some "uploads/alice.png") None true false]))).
Proof. vm_compute. split; reflexivity. Qed.

(** ** The claims at work on the sample server *)

Lemma campus_online_reached :
  run [Connection "s1"; UserLogin "s1" "alice" 1] campus = campus_online.
Proof. vm_compute. reflexivity. Qed.



Lemma counts_never_negative_witness :
  counts_nonneg
    (foldl (λ e op, react op.1 op.2 e) drifted_update
       [("alice", "like"); ("alice", "like"); ("bob", "dislike"); ("bob", "like")]) ∧
  all_events counts_nonneg
    (run [UpdateReaction "s1" (Some (mkUpdateReactionData "u1" "dislike"));
          UpdateReaction "s1" (Some (mkUpdateReactionData "u1" "dislike"))]
       campus_online).
Proof.
  apply counts_never_negative.
  - split; simpl; lia.
  - apply Forall_singleton. split; simpl; lia.
Defined.

Lemma sendMessage_saves_before_delivery_witness :
  ∃ tr,
    trace (exec (sendMessage "s1" (Some (mkSendMessageData "bob" "hi"))) campus_online)
      = (trace campus_online ++ tr)%list ∧
    (∀ before e after, tr = (before ++ e :: after)%list → is_delivery e →
       SavedMessage (Message.mk "alice" "bob" "hi") ∈ before ∧
       Message.mk "alice" "bob" "hi"
         ∈ messages
             (exec (sendMessage "s1" (Some (mkSendMessageData "bob" "hi"))) campus_online)) ∧
    (head (storeFaults campus_online) = Some true →
       messages (exec (sendMessage "s1" (Some (mkSendMessageData "bob" "hi"))) campus_online)
         = messages campus_online ∧
       tr = [error_to "s1" "messageError" "Failed to send message"]).
Proof.
  apply (sendMessage_saves_before_delivery campus_online "s1"
           (mkSendMessageData "bob" "hi")).
  reflexivity.
Defined.

Lemma userLogin_failed_write_keeps_registration_witness :
  let w := with_storeFaults [true] campus in
  let w' := exec (userLogin "s1" "alice" 1) w in
  "s1" ∈ connections (onlineUsersMap w') "alice" ∧
  isOnline (onlineUsersMap w') "alice" = true ∧
  users w' = [alice; bob] ∧
  trace w' = [].
Proof.
  destruct (userLogin_failed_write_keeps_registration
              (with_storeFaults [true] campus) "s1" "alice" 1 [] eq_refl)
    as (_ & Hin & Hon & Hus & Htr & _).
  repeat split; assumption.
Defined.



(** * Further properties of the handlers *)

(** ** Picture URLs (lines 90-115) *)

Lemma format_url_cons c s :
  format_url (Some (String c s)) =
  if startsWith "http" (String c s) then Some (String c s)
  else Some ("http://localhost:5000/" ++ String c s).
Proof. reflexivity. Qed.

Lemma format_url_absolute path : absolute_or_null (format_url path).
Proof.
  destruct path as [[|c s]|]; [done| |done]. rewrite format_url_cons.
  by destruct (startsWith "http" (String c s)) eqn:Hs.
Qed.

Lemma format_url_of_absolute s :
  startsWith "http" s = true → format_url (Some s) = Some s.
Proof.
  intros Hs. unfold format_url. rewrite Hs.
  destruct s as [|c s]; [discriminate|done].
Qed.

(** X1: a formatted picture reference is [null] or starts with [http];
    formatting leaves an absolute URL as it is, and formatting twice is
    formatting once. *)
Theorem format_url_absolute_idempotent path :
  absolute_or_null (format_url path) ∧
  format_url (format_url path) = format_url path ∧
  (∀ s, path = Some s → startsWith "http" s = true → format_url path = Some s).
Proof.
  split; [apply format_url_absolute|split].
  - destruct path as [[|c s]|]; [done| |done]. rewrite format_url_cons.
    destruct (startsWith "http" (String c s)) eqn:Hs; by apply format_url_of_absolute.
  - intros s -> Hs. by apply format_url_of_absolute.
Qed.

(** ** More on the reaction toggle (lines 168-202) *)

(** [react] only changes the counts and the reaction list. *)
Lemma react_fields userId ty e :
  react userId ty e =
  Event.mk (Event._id e) (Event.title e) (Event.description e) (Event.organizer e)
    (Event.likes (react userId ty e)) (Event.dislikes (react userId ty e))
    (Event.reactions (react userId ty e)).
Proof.
  unfold react. destruct e.
  destruct (list_find _ _) as [[i r]|]; repeat case_decide; done.
Qed.

(** The reaction found for [P] is not affected by removing or rewriting an
    entry that [P] rejects before and after. *)
Lemma list_find_delete_other {A} (P : A → Prop) `{∀ x, Decision (P x)}
    (l : list A) i x :
  l !! i = Some x → ¬ P x →
  snd <$> list_find P (delete i l) = snd <$> list_find P l.
Proof.
  revert i. induction l as [|y l IH]; intros [|i] Hi Hx; simplify_eq/=.
  - rewrite decide_False by done. by destruct (list_find P l) as [[]|].
  - case_decide; [done|]. specialize (IH i Hi Hx).
    destruct (list_find P (delete i l)) as [[]|], (list_find P l) as [[]|];
      simplify_eq/=; done.
Qed.

Lemma list_find_insert_other {A} (P : A → Prop) `{∀ x, Decision (P x)}
    (l : list A) i x x' :
  l !! i = Some x → ¬ P x → ¬ P x' →
  snd <$> list_find P (<[i := x']> l) = snd <$> list_find P l.
Proof.
  revert i. induction l as [|y l IH]; intros [|i] Hi Hx Hx'; simplify_eq/=.
  - by rewrite !decide_False by done.
  - case_decide; [done|]. specialize (IH i Hi Hx Hx').
    destruct (list_find P (<[i:=x']> l)) as [[]|], (list_find P l) as [[]|];
      simplify_eq/=; done.
Qed.

Lemma list_find_snoc_other {A} (P : A → Prop) `{∀ x, Decision (P x)}
    (l : list A) x :
  ¬ P x → snd <$> list_find P (l ++ [x]) = snd <$> list_find P l.
Proof.
  intros Hx. induction l as [|y l IH]; simpl.
  - by rewrite decide_False.
  - case_decide; [done|].
    destruct (list_find P (l ++ [x])) as [[]|], (list_find P l) as [[]|];
      simplify_eq/=; done.
Qed.

Lemma fmap_user_insert (rs : list Reaction.t) (i : nat) r ty :
  rs !! i = Some r →
  Reaction.user <$> <[i := Reaction.mk (Reaction.user r) ty]> rs = Reaction.user <$> rs.
Proof.
  revert i. induction rs as [|y rs IH]; intros [|i] Hi; simplify_eq/=; [done|].
  f_equal. by apply IH.
Qed.

Lemma found_type_snd v (rs : list Reaction.t) :
  (λ found : nat * Reaction.t, Reaction.type found.2)
    <$> list_find (λ r, Reaction.user r = v) rs =
  Reaction.type <$> (snd <$> list_find (λ r, Reaction.user r = v) rs).
Proof. by destruct (list_find _ rs) as [[]|]. Qed.

(** X2: the toggle keeps the reaction list at one reaction per user, and
    never touches the reaction of another user. *)
Theorem react_keeps_one_reaction_per_user userId ty e :
  one_reaction_per_user e →
  one_reaction_per_user (react userId ty e) ∧
  ∀ v, v ≠ userId → reaction_of v (react userId ty e) = reaction_of v e.
Proof.
  intros Hnd. unfold one_reaction_per_user, reaction_of in *.
  rewrite react_reactions.
  destruct (list_find _ (Event.reactions e)) as [[i r]|] eqn:Hfind.
  - apply list_find_Some in Hfind as (Hi & Hu & _).
    assert (alter (Reaction.with_type ty) i (Event.reactions e) =
            <[i := Reaction.mk (Reaction.user r) ty]> (Event.reactions e)) as Halter
      by (by rewrite (alter_as_insert _ _ _ _ Hi)).
    case_decide.
    + split.
      * eapply sublist_NoDup; [exact Hnd|]. apply fmap_sublist, sublist_delete.
      * intros v Hv.
        pose proof (list_find_delete_other (λ r, Reaction.user r = v) _ i r Hi) as Heq.
        rewrite !found_type_snd. by rewrite Heq by congruence.
    + rewrite Halter. split.
      * by rewrite (fmap_user_insert _ _ _ _ Hi).
      * intros v Hv.
        pose proof (list_find_insert_other (λ r, Reaction.user r = v) _ i r
                      (Reaction.mk (Reaction.user r) ty) Hi) as Heq.
        rewrite !found_type_snd. by rewrite Heq by (simpl; congruence).
  - apply list_find_None in Hfind. split.
    + rewrite fmap_app. apply NoDup_app. split; [done|]. split; [|apply NoDup_singleton].
      intros u Hin [= <-]%list_elem_of_singleton.
      apply list_elem_of_fmap in Hin as (r & Hr & Hin).
      eapply Forall_forall in Hfind; [|exact Hin]. by apply Hfind.
    + intros v Hv.
      pose proof (list_find_snoc_other (λ r, Reaction.user r = v) (Event.reactions e)
                    (Reaction.mk userId ty)) as Heq.
      rewrite !found_type_snd. by rewrite Heq by (simpl; congruence).
Qed.

Lemma react_keeps_one_reaction_per_user_witness :
  one_reaction_per_user (react "bob" "dislike" drifted_update) ∧
  reaction_of "alice" (react "bob" "dislike" drifted_update) = Some "like".
Proof.
  destruct (react_keeps_one_reaction_per_user "bob" "dislike" drifted_update)
    as [Hnd Hother].
  - apply NoDup_singleton.
  - split; [exact Hnd|]. by rewrite Hother.
Defined.

Lemma react_twice_restores_eq userId ty e :
  reaction_of userId e = None →
  counts_nonneg e →
  react userId ty (react userId ty e) = e.
Proof.
  intros Hnone [Hl Hd].
  destruct (react_from_none userId ty e Hnone) as [Hsome _].
  rewrite react_fields, !react_id, !react_likes, !react_dislikes, Hsome, Hnone.
  rewrite (react_twice_reactions userId ty e Hnone).
  rewrite (react_fields userId ty e). simpl.
  destruct e as [id t d o l dl rs]; simpl in *.
  rewrite !(decide_True (P := ty = ty)) by done.
  destruct (decide (ty = "like")); f_equal; lia.
Qed.

(** X3: reacting twice with the same category undoes itself: for a user
    without a reaction, on an update whose counts are non-negative safe
    integers, the second call gives back the update as it was, whatever the
    category sent. *)
Theorem react_twice_restores userId ty e :
  reaction_of userId e = None →
  counts_nonneg e →
  counts_safe e →
  react userId ty (react userId ty e) = e.
Proof. intros Hnone Hpos _. by apply react_twice_restores_eq. Qed.

Lemma react_twice_restores_witness :
  react "bob" "dislike" (react "bob" "dislike" drifted_update) = drifted_update.
Proof.
  apply (react_twice_restores "bob" "dislike" drifted_update); [reflexivity| |].
  - split; simpl; lia.
  - repeat split; reflexivity.
Defined.

(** X4: a category other than [like] is counted as a dislike.  For a user
    without a reaction, a request with an unknown category stores that
    category and adds 1 to [dislikes]; counts that agreed with the
    reaction list no longer do. *)
Theorem react_unknown_category_counts_as_dislike userId ty e :
  ty ≠ "like" → ty ≠ "dislike" →
  reaction_of userId e = None →
  counts_consistent e →
  reaction_of userId (react userId ty e) = Some ty ∧
  Event.likes (react userId ty e) = Event.likes e ∧
  Event.dislikes (react userId ty e) = Event.dislikes e + 1 ∧
  ¬ counts_consistent (react userId ty e).
Proof.
  intros Hlike Hdislike Hnone [Hl Hd].
  destruct (react_from_none userId ty e Hnone) as [Hsome Hrs].
  rewrite react_likes, react_dislikes, Hnone, !decide_False by done.
  repeat split; [done|]. intros [_ Hd']. revert Hd'.
  rewrite react_dislikes, Hnone, decide_False, Hrs by done.
  rewrite count_type_app, count_type_cons. simpl.
  rewrite decide_False by done. change (count_type "dislike" []) with 0. lia.
Qed.

Lemma react_unknown_category_counts_as_dislike_witness :
  Event.dislikes (react "bob" "love" sports_day) = 1 ∧
  ¬ counts_consistent (react "bob" "love" sports_day).
Proof.
  destruct (react_unknown_category_counts_as_dislike "bob" "love" sports_day)
    as (_ & _ & Hd & Hbad); [done|done|reflexivity|split; reflexivity|].
  split; assumption.
Defined.

(** ** What every handler leaves alone *)

Section handler_frame.
Variable I : World → Prop.
Hypothesis I_silent : silent I.
Hypothesis I_sockets : ∀ w s, I w → I (with_sockets s w).
Hypothesis I_registry : ∀ w m, I w → I (with_onlineUsersMap m w).
Hypothesis I_users : ∀ w userId online seen, I w →
  I (with_users ((λ u, if decide (User._id u = userId)
                       then User.with_presence online seen u else u) <$> users w) w).
Hypothesis I_settings : ∀ w s, I w → I (with_userSettings s w).
Hypothesis I_message : ∀ w m, I w → I (with_messages (messages w ++ [m]) w).
Hypothesis I_event : ∀ w e, I w → I (with_events (store_event e (events w)) w).

Lemma frame_emitOnlineUsers : keeps I emitOnlineUsers.
Proof using I_silent. unfold emitOnlineUsers, User_find_visible. keeps_walk. Qed.

Lemma frame_findByIdAndUpdate userId online seen :
  keeps I (User_findByIdAndUpdate userId online seen).
Proof using I_silent I_users.
  unfold User_findByIdAndUpdate. keeps_walk. by apply I_users.
Qed.

Lemma frame_populate userId : keeps I (populate userId).
Proof using I_silent. unfold populate. keeps_walk. Qed.

Lemma frame_populate_organizer userId : keeps I (populate_organizer userId).
Proof using I_silent. unfold populate_organizer. keeps_walk. Qed.

Lemma frame_sendMessage socketId data : keeps I (sendMessage socketId data).
Proof using I_silent I_message.
  unfold sendMessage, Message_save.
  keeps_walk; try apply frame_populate. by apply I_message.
Qed.

Lemma frame_createUpdate socketId newId data :
  keeps I (createUpdate socketId newId data).
Proof using I_silent I_event.
  unfold createUpdate, Event_save.
  keeps_walk; try apply frame_populate_organizer. by apply I_event.
Qed.

Lemma frame_updateReaction socketId data : keeps I (updateReaction socketId data).
Proof using I_silent I_event.
  unfold updateReaction, Event_save, Event_findById. keeps_walk. by apply I_event.
Qed.

Lemma frame_userLogin socketId userId now : keeps I (userLogin socketId userId now).
Proof using I_silent I_sockets I_registry I_users.
  unfold userLogin.
  keeps_walk; [by apply I_sockets|by apply I_registry
              |apply frame_findByIdAndUpdate|apply frame_emitOnlineUsers].
Qed.

Lemma frame_userLogout socketId userId now : keeps I (userLogout socketId userId now).
Proof using I_silent I_registry I_users.
  unfold userLogout.
  keeps_walk; [by apply I_registry|apply frame_findByIdAndUpdate|apply frame_emitOnlineUsers].
Qed.

Lemma frame_disconnect socketId now : keeps I (disconnect socketId now).
Proof using I_silent I_registry I_users.
  unfold disconnect.
  apply keeps_try_catch; [|intros; keeps_walk].
  apply keeps_bind.
  - intros w Hw. destruct (unregister _ _). by apply I_registry.
  - intros found.
    keeps_walk; [apply frame_findByIdAndUpdate|apply frame_emitOnlineUsers].
Qed.

Lemma frame_updateSettings socketId updatedSettings :
  keeps I (updateSettings socketId updatedSettings).
Proof using I_silent I_settings.
  unfold updateSettings, UserSettings_findOneAndUpdate.
  keeps_walk; try apply frame_emitOnlineUsers. by apply I_settings.
Qed.

Lemma frame_handle ev : keeps I (handle ev).
Proof using All.
  destruct ev; simpl.
  - unfold connection. keeps_walk. by apply I_sockets.
  - unfold joinUserRoom. keeps_walk. by apply I_sockets.
  - apply frame_sendMessage.
  - apply frame_createUpdate.
  - apply frame_updateReaction.
  - apply frame_userLogin.
  - apply frame_userLogout.
  - apply frame_disconnect.
  - apply frame_updateSettings.
Qed.

Lemma frame_run evs w : I w → I (run evs w).
Proof using All.
  revert w. induction evs as [|ev evs IH]; intros w Hw; simpl; [done|].
  apply IH. unfold step. apply keeps_exec; [apply frame_handle|done].
Qed.
End handler_frame.

(** X5: no inbound event adds, removes or reorders stored users, or changes
    anything of a user but the presence fields [isOnline] and [lastSeen]; in
    particular no event changes a user's [showOnlineStatus]. *)
Theorem handlers_only_touch_presence_fields w evs :
  profile <$> users (run evs w) = profile <$> users w ∧
  User.showOnlineStatus <$> users (run evs w) = User.showOnlineStatus <$> users w.
Proof.
  assert (profile <$> users (run evs w) = profile <$> users w) as Hprofile.
  { apply (frame_run (λ w', profile <$> users w' = profile <$> users w));
      try done.
    intros w' userId online seen Hw'. simpl. rewrite <- Hw', <- list_fmap_compose.
    apply list_fmap_ext. intros i u _. simpl. by case_decide. }
  split; [done|].
  change User.showOnlineStatus with (User.showOnlineStatus ∘ profile).
  by rewrite !list_fmap_compose, Hprofile.
Qed.

(** X6: stored messages are only ever appended: whatever events arrive, the
    messages stored before are still there, unchanged and in order. *)
Theorem messages_append_only w evs :
  messages w `prefix_of` messages (run evs w).
Proof.
  apply (frame_run (λ w', messages w `prefix_of` messages w')); try done.
  intros w' m Hw'. simpl. by apply prefix_app_r.
Qed.

Lemma store_event_ids e es :
  Event._id <$> store_event e es = Event._id <$> es ∨
  Event._id <$> store_event e es = ((Event._id <$> es) ++ [Event._id e])%list.
Proof.
  induction es as [|e' es IH]; csimpl; [by right|].
  case_decide as Hid; csimpl.
  - left. by rewrite Hid.
  - destruct IH as [-> | ->]; [by left|by right].
Qed.

(** X7: stored updates are never deleted or reordered: whatever events
    arrive, the ids of the updates stored before stay a prefix of the ids
    stored afterwards. *)
Theorem updates_never_deleted w evs :
  (Event._id <$> events w) `prefix_of` (Event._id <$> events (run evs w)).
Proof.
  apply (frame_run (λ w', (Event._id <$> events w) `prefix_of` (Event._id <$> events w')));
    try done.
  intros w' e Hw'. simpl.
  destruct (store_event_ids e (events w')) as [-> | ->]; [done|by apply prefix_app_r].
Qed.

(** ** The presence broadcast (lines 25-47) *)

Lemma elem_of_keys_isOnline (m : list (string * gset string)) userId :
  userId ∈ JsMap.keys m ↔ isOnline m userId = true.
Proof.
  unfold isOnline, JsMap.has.
  destruct (JsMap.get userId m) eqn:Hget.
  - split; [done|]. intros _.
    destruct (decide (userId ∈ JsMap.keys m)) as [|Hnot]; [done|].
    apply get_None_keys in Hnot. congruence.
  - apply get_None_keys in Hget. split; [done|discriminate].
Qed.

(** X8: when the store answers, a broadcast emits one [onlineUsers] event to
    everyone, listing exactly the stored users that have a registry entry
    and whose [User] document has [showOnlineStatus] set. *)
Theorem emitOnlineUsers_lists_online_visible_users w :
  head (storeFaults w) ≠ Some true →
  ∃ snapshot,
    trace (exec emitOnlineUsers w) =
      (trace w ++ [Emit (mkEmission ToAll "onlineUsers" (POnlineUsers snapshot))])%list ∧
    ∀ id, id ∈ ou_id <$> snapshot ↔
          ∃ u, u ∈ users w ∧ User._id u = id ∧
               isOnline (onlineUsersMap w) id = true ∧
               User.showOnlineStatus u = true.
Proof.
  intros Hfault. eexists. split; [by apply emitOnlineUsers_snapshot|].
  intros id. rewrite <- list_fmap_compose, list_elem_of_fmap. split.
  - intros (u & -> & [[Hon Hvis] Hin]%list_elem_of_filter). simpl.
    exists u. by rewrite <- elem_of_keys_isOnline.
  - intros (u & Hin & <- & Hon & Hvis). exists u. split; [done|].
    apply list_elem_of_filter. by rewrite elem_of_keys_isOnline.
Qed.

Lemma emitOnlineUsers_lists_online_visible_users_witness :
  ∃ snapshot,
    trace (exec emitOnlineUsers campus_online) =
      (trace campus_online ++
       [Emit (mkEmission ToAll "onlineUsers" (POnlineUsers snapshot))])%list ∧
    ∀ id, id ∈ ou_id <$> snapshot ↔
          ∃ u, u ∈ users campus_online ∧ User._id u = id ∧
               isOnline (onlineUsersMap campus_online) id = true ∧
               User.showOnlineStatus u = true.
Proof. apply (emitOnlineUsers_lists_online_visible_users campus_online). discriminate. Defined.

(** X9: a broadcast the store rejects is skipped and logged, and does not
    fail the handler that asked for it: when [userLogin]'s own write is
    accepted and the broadcast's query is rejected, the user is registered
    and marked online, nothing is emitted, and the only log line is the
    broadcast's. *)
Theorem userLogin_survives_failed_broadcast w socketId userId now fs :
  storeFaults w = false :: true :: fs →
  let w' := exec (userLogin socketId userId now) w in
  onlineUsersMap w' = register userId socketId (onlineUsersMap w) ∧
  users w' = ((λ u, if decide (User._id u = userId)
                    then User.with_presence true now u else u) <$> users w) ∧
  trace w' = (trace w ++ [UpdatedUser userId true now])%list ∧
  console w' = (console w ++ ["Error emitting online users:"])%list ∧
  storeFaults w' = fs.
Proof.
  intros Hfaults w'. unfold w'. rewrite userLogin_registry. split; [done|].
  unfold userLogin, emitOnlineUsers. unfold_handler.
  destruct w as [reg socks us sets msgs evs faults tr con].
  simpl in Hfaults. subst faults. done.
Qed.

Lemma userLogin_survives_failed_broadcast_witness :
  let w' := exec (userLogin "s1" "alice" 1) (with_storeFaults [false; true] campus) in
  trace w' = [UpdatedUser "alice" true 1] ∧
  console w' = ["Error emitting online users:"].
Proof.
  destruct (userLogin_survives_failed_broadcast
              (with_storeFaults [false; true] campus) "s1" "alice" 1 [] eq_refl)
    as (_ & _ & Htr & Hcon & _).
  split; assumption.
Defined.

(** ** The message relay (lines 63-126) *)

(** X10: when the store answers, [sendMessage] on an authenticated
    connection stores the message with the connection's identity as sender,
    then emits [newMessage] to the room named by the recipient id and
    [messageSent] with the same payload to the room named by the sender id,
    and logs nothing.  The registry is not consulted.  A recipient the store
    does not know is [null] in the payload, and every picture in the payload
    is [null] or an absolute URL. *)
Theorem sendMessage_delivers_to_rooms w socketId d :
  truthy (Socket.userId (socket_of socketId w)) = true →
  true ∉ take 3 (storeFaults w) →
  let userId := default "" (Socket.userId (socket_of socketId w)) in
  let m := Message.mk userId (recipientId d) (text d) in
  let w' := exec (sendMessage socketId (Some d)) w in
  ∃ fm,
    trace w' =
      (trace w ++ [SavedMessage m;
                   Emit (mkEmission (ToRoom (recipientId d)) "newMessage" (PMessage fm));
                   Emit (mkEmission (ToRoom userId) "messageSent" (PMessage fm))])%list ∧
    messages w' = (messages w ++ [m])%list ∧
    console w' = console w ∧
    onlineUsersMap w' = onlineUsersMap w ∧
    fm_text fm = text d ∧
    (fm_recipient fm = None ↔ ∀ u, u ∈ users w → User._id u ≠ recipientId d) ∧
    (∀ p, fm_sender fm = Some p ∨ fm_recipient fm = Some p →
          absolute_or_null (pu_profilePicture p) ∧ absolute_or_null (pu_avatar p)).
Proof.
  intros Hu Hfaults. unfold sendMessage. unfold_handler. rewrite Hu.
  generalize (Socket.userId (socket_of socketId w)). intros userId.
  destruct w as [reg socks us sets msgs evs faults tr con]. simpl in Hfaults.
  assert (∀ k,
    (format_user <$> ((λ u, mkPopulatedUser (User._id u) (User.username u)
                             (User.profilePicture u) (User.avatar u))
                      <$> (snd <$> list_find (λ u, User._id u = k) us)) = None ↔
     ∀ u, u ∈ us → User._id u ≠ k) ∧
    ∀ p, format_user <$> ((λ u, mkPopulatedUser (User._id u) (User.username u)
                                  (User.profilePicture u) (User.avatar u))
                          <$> (snd <$> list_find (λ u, User._id u = k) us)) = Some p →
         absolute_or_null (pu_profilePicture p) ∧ absolute_or_null (pu_avatar p))
    as Hpop.
  { intros k. destruct (list_find _ us) as [[i u]|] eqn:Hfind; simpl.
    - apply list_find_Some in Hfind as (Hi & Hk & _). split.
      + split; [done|]. intros Hnone. exfalso.
        apply (Hnone u); [by eapply list_elem_of_lookup_2|done].
      + intros p [= <-]. simpl. split; apply format_url_absolute.
    - apply list_find_None in Hfind. split; [|done]. split; [|done].
      intros _ u Hin. eapply Forall_forall in Hfind; [|exact Hin]. done. }
  destruct faults as [|[] [|[] [|[] fs]]]; simpl in *;
    first [ by (exfalso; apply Hfaults; repeat constructor) |
    (eexists; rewrite <- !app_assoc; simpl;
     repeat (split; [reflexivity|]); split; [apply Hpop|];
     intros p [Hp|Hp]; by apply Hpop in Hp) ].
Qed.

Lemma sendMessage_delivers_to_rooms_witness :
  ∃ fm,
    trace (exec (sendMessage "s1" (Some (mkSendMessageData "zoe" "hi"))) campus_online) =
      (trace campus_online ++
       [SavedMessage (Message.mk "alice" "zoe" "hi");
        Emit (mkEmission (ToRoom "zoe") "newMessage" (PMessage fm));
        Emit (mkEmission (ToRoom "alice") "messageSent" (PMessage fm))])%list ∧
    fm_recipient fm = None.
Proof.
  destruct (sendMessage_delivers_to_rooms campus_online "s1" (mkSendMessageData "zoe" "hi"))
    as (fm & Htr & _ & _ & _ & _ & Hrec & _).
  - reflexivity.
  - simpl. apply not_elem_of_nil.
  - exists fm. split; [exact Htr|]. apply Hrec.
    intros u [->|[->|[]%elem_of_nil]%elem_of_cons]%elem_of_cons; discriminate.
Defined.

(** X11: when the save is accepted and a later [populate] is rejected, the
    message stays stored but is delivered to no one: the only emission is
    [messageError] to the sending connection. *)
Theorem sendMessage_enrichment_failure_keeps_message w socketId d fs :
  truthy (Socket.userId (socket_of socketId w)) = true →
  storeFaults w = false :: true :: fs ∨ storeFaults w = false :: false :: true :: fs →
  let userId := default "" (Socket.userId (socket_of socketId w)) in
  let m := Message.mk userId (recipientId d) (text d) in
  let w' := exec (sendMessage socketId (Some d)) w in
  messages w' = (messages w ++ [m])%list ∧
  trace w' = (trace w ++ [SavedMessage m;
                          error_to socketId "messageError" "Failed to send message"])%list ∧
  console w' = (console w ++ ["Error in sendMessage:"])%list.
Proof.
  intros Hu Hfaults. unfold sendMessage. unfold_handler. rewrite Hu.
  generalize (Socket.userId (socket_of socketId w)). intros userId.
  destruct w as [reg socks us sets msgs evs faults tr con]. simpl in Hfaults.
  destruct Hfaults as [-> | ->]; simpl; by rewrite <- app_assoc.
Qed.

Lemma sendMessage_enrichment_failure_keeps_message_witness :
  let w := with_storeFaults [false; true] campus_online in
  let w' := exec (sendMessage "s1" (Some (mkSendMessageData "bob" "hi"))) w in
  messages w' = [Message.mk "alice" "bob" "hi"] ∧
  trace w' = (trace w ++ [SavedMessage (Message.mk "alice" "bob" "hi");
                          error_to "s1" "messageError" "Failed to send message"])%list.
Proof.
  destruct (sendMessage_enrichment_failure_keeps_message
              (with_storeFaults [false; true] campus_online) "s1"
              (mkSendMessageData "bob" "hi") [] eq_refl (or_introl eq_refl))
    as (Hm & Htr & _).
  split; assumption.
Defined.

(** X12: a payload that is [null] or [undefined] cannot be destructured.
    [sendMessage] destructures before its identity check, so it answers
    [messageError] on any connection, authenticated or not; [createUpdate]
    and [updateReaction] check first and answer [updateError] only on an
    authenticated connection.  In every case nothing is stored and no store
    call is made. *)
Theorem null_payload_is_reported w socketId newId :
  exec (sendMessage socketId None) w =
    with_trace (trace w ++ [error_to socketId "messageError" "Failed to send message"])
      (with_console (console w ++ ["Error in sendMessage:"]) w) ∧
  (truthy (Socket.userId (socket_of socketId w)) = true →
   exec (createUpdate socketId newId None) w =
     with_trace (trace w ++ [error_to socketId "updateError" "Failed to create update"])
       (with_console (console w ++ ["Error in createUpdate:"]) w) ∧
   exec (updateReaction socketId None) w =
     with_trace (trace w ++ [error_to socketId "updateError" "Failed to react to update"])
       (with_console (console w ++ ["Error in updateReaction:"]) w)).
Proof.
  split; [done|]. intros Hu.
  unfold createUpdate, updateReaction. unfold_handler. by rewrite Hu.
Qed.

Lemma null_payload_is_reported_witness :
  exec (updateReaction "s1" None) campus_online =
    with_trace (trace campus_online ++
                [error_to "s1" "updateError" "Failed to react to update"])
      (with_console (console campus_online ++ ["Error in updateReaction:"]) campus_online).
Proof.
  destruct (null_payload_is_reported campus_online "s1" "u2") as [_ Hauth].
  destruct (Hauth eq_refl) as [_ Hreact]. exact Hreact.
Defined.

(** ** The reaction handler (lines 153-210) *)

(** X13: a reaction to an update the store does not have is answered with
    [updateError] "Update not found" on the requesting connection only;
    nothing is stored, broadcast or logged. *)
Theorem updateReaction_unknown_update w socketId d :
  truthy (Socket.userId (socket_of socketId w)) = true →
  head (storeFaults w) ≠ Some true →
  list_find (λ e, Event._id e = updateId d) (events w) = None →
  let w' := exec (updateReaction socketId (Some d)) w in
  events w' = events w ∧
  trace w' = (trace w ++ [error_to socketId "updateError" "Update not found"])%list ∧
  console w' = console w.
Proof.
  intros Hu Hfault Hfind. unfold updateReaction. unfold_handler. rewrite Hu.
  destruct w as [reg socks us sets msgs evs faults tr con]. simpl in *.
  destruct faults as [|[] fs]; simpl; [|done|]; by rewrite Hfind.
Qed.

Lemma updateReaction_unknown_update_witness :
  let w' := exec (updateReaction "s1" (Some (mkUpdateReactionData "u9" "like")))
              campus_online in
  events w' = events campus_online ∧
  trace w' = (trace campus_online ++
              [error_to "s1" "updateError" "Update not found"])%list.
Proof.
  destruct (updateReaction_unknown_update campus_online "s1"
              (mkUpdateReactionData "u9" "like"))
    as (Hev & Htr & _); [reflexivity|discriminate|reflexivity|].
  split; assumption.
Defined.

(** X14: when the store rejects the lookup, or rejects the save of the
    toggled update, the stored updates are left as they were: no reaction
    or count is changed, nothing is broadcast, and the requesting
    connection gets [updateError] "Failed to react to update". *)
Theorem updateReaction_store_failure_changes_nothing w socketId d fs :
  truthy (Socket.userId (socket_of socketId w)) = true →
  storeFaults w = true :: fs ∨
  (storeFaults w = false :: true :: fs ∧
   is_Some (list_find (λ e, Event._id e = updateId d) (events w))) →
  let w' := exec (updateReaction socketId (Some d)) w in
  events w' = events w ∧
  trace w' =
    (trace w ++ [error_to socketId "updateError" "Failed to react to update"])%list ∧
  console w' = (console w ++ ["Error in updateReaction:"])%list.
Proof.
  intros Hu Hfaults. unfold updateReaction. unfold_handler. rewrite Hu.
  destruct w as [reg socks us sets msgs evs faults tr con]. simpl in *.
  destruct Hfaults as [-> | [-> [[i e] Hfind]]]; simpl; [done|].
  by rewrite Hfind.
Qed.

Lemma updateReaction_store_failure_changes_nothing_witness :
  events (exec (updateReaction "s1" (Some (mkUpdateReactionData "u1" "like")))
            (with_storeFaults [false; true] campus_online)) = [sports_day].
Proof.
  destruct (updateReaction_store_failure_changes_nothing
              (with_storeFaults [false; true] campus_online) "s1"
              (mkUpdateReactionData "u1" "like") [] eq_refl
              (or_intror (conj eq_refl (mk_is_Some _ _ eq_refl))))
    as [Hev _].
  exact Hev.
Defined.

(** The world [updateReaction] leaves when everything goes well. *)
Lemma updateReaction_success_world w socketId d userId i update :
  Socket.userId (socket_of socketId w) = Some userId →
  userId ≠ "" →
  storeFaults w = [] →
  list_find (λ e, Event._id e = updateId d) (events w) = Some (i, update) →
  let update' := react userId (reactionType d) update in
  exec (updateReaction socketId (Some d)) w =
    with_trace
      (trace w ++ [SavedEvent update';
                   Emit (mkEmission ToAll "updateReaction" (PUpdate update'))])
      (with_events (store_event update' (events w)) w).
Proof.
  intros Hu Hne Hfaults Hfind. unfold updateReaction. unfold_handler.
  rewrite Hu. simpl.
  destruct (String.eqb_spec userId "") as [|_]; [done|]. simpl.
  destruct w as [reg socks us sets msgs evs faults tr con].
  simpl in *. subst faults. rewrite Hfind. simpl.
  by rewrite <- app_assoc.
Qed.

(** Saving a document over the one a lookup by id found puts it in that
    place, where the next lookup finds it. *)
Lemma store_event_found k es i e e' :
  list_find (λ x, Event._id x = k) es = Some (i, e) →
  Event._id e' = k →
  store_event e' es = <[i := e']> es ∧
  list_find (λ x, Event._id x = k) (store_event e' es) = Some (i, e').
Proof.
  intros Hfind Hid. revert i Hfind.
  induction es as [|x es IH]; intros i Hfind; simpl in *; [done|].
  destruct (decide (Event._id x = k)) as [Hx|Hx].
  - simplify_eq. rewrite decide_True by done. simpl.
    by rewrite decide_True.
  - destruct (list_find _ es) as [[j y]|] eqn:Hes; simplify_eq/=.
    destruct (IH j eq_refl) as [Hstore Hfind'].
    rewrite decide_False by congruence. simpl.
    rewrite decide_False by done. by rewrite Hstore, <- Hstore, Hfind'.
Qed.

(** X15: the toggle undoes itself through the store: on an authenticated
    connection, with the store answering, two identical [updateReaction]
    events handled one after the other, from a user without a reaction on an
    update whose counts are non-negative safe integers, leave the stored
    updates exactly as they were, each event broadcasting the update as it
    then is. *)
Theorem updateReaction_twice_restores_store w socketId d userId i update :
  Socket.userId (socket_of socketId w) = Some userId →
  userId ≠ "" →
  storeFaults w = [] →
  list_find (λ e, Event._id e = updateId d) (events w) = Some (i, update) →
  reaction_of userId update = None →
  counts_nonneg update →
  counts_safe update →
  let update' := react userId (reactionType d) update in
  let w' := run [UpdateReaction socketId (Some d); UpdateReaction socketId (Some d)] w in
  events w' = events w ∧
  trace w' =
    (trace w ++ [SavedEvent update';
                 Emit (mkEmission ToAll "updateReaction" (PUpdate update'));
                 SavedEvent update;
                 Emit (mkEmission ToAll "updateReaction" (PUpdate update))])%list.
Proof.
  intros Hu Hne Hfaults Hfind Hnone Hpos _ update' w'.
  assert (Event._id update = updateId d) as Hid.
  { by apply list_find_Some in Hfind as (_ & ? & _). }
  destruct (store_event_found _ _ _ _ update' Hfind) as [Hstore Hfind1].
  { unfold update'. by rewrite react_id. }
  assert (react userId (reactionType d) update' = update) as Hback
    by (by apply react_twice_restores_eq).
  set (w1 := exec (updateReaction socketId (Some d)) w).
  assert (w1 = with_trace
                 (trace w ++ [SavedEvent update';
                              Emit (mkEmission ToAll "updateReaction" (PUpdate update'))])
                 (with_events (store_event update' (events w)) w)) as Hw1
    by (by apply (updateReaction_success_world w socketId d userId i update)).
  assert (w' = exec (updateReaction socketId (Some d)) w1) as -> by done.
  rewrite (updateReaction_success_world w1 socketId d userId i update');
    [|by try rewrite Hw1; destruct w..].
  fold update'. rewrite Hback, Hw1. simpl. split.
  - destruct (store_event_found _ _ _ _ update Hfind1 Hid) as [-> _].
    rewrite Hstore, list_insert_insert_eq. apply list_insert_id.
    by apply list_find_Some in Hfind as (? & _).
  - by rewrite <- app_assoc.
Qed.

Lemma updateReaction_twice_restores_store_witness :
  events
    (run [UpdateReaction "s1" (Some (mkUpdateReactionData "u1" "like"));
          UpdateReaction "s1" (Some (mkUpdateReactionData "u1" "like"))] campus_online)
  = events campus_online.
Proof.
  assert ("alice" ≠ "") as Hne by discriminate.
  assert (counts_nonneg sports_day) as Hpos by (split; simpl; lia).
  assert (counts_safe sports_day) as Hsafe by (repeat split; reflexivity).
  exact (proj1 (updateReaction_twice_restores_store campus_online "s1"
                  (mkUpdateReactionData "u1" "like") "alice" 0%nat sports_day
                  eq_refl Hne eq_refl eq_refl eq_refl Hpos Hsafe)).
Defined.

(** ** The update publisher (lines 129-151) *)

(** X16: on an authenticated connection [createUpdate] stores a new update
    whose organizer is the connection's identity, then broadcasts it to
    everyone.  When the save is rejected nothing is stored; when the save is
    accepted and the [populate] is rejected the update stays stored but is
    not broadcast.  Both failures are answered with [updateError] on the
    requesting connection. *)
Theorem createUpdate_outcomes w socketId newId data :
  truthy (Socket.userId (socket_of socketId w)) = true →
  let userId := default "" (Socket.userId (socket_of socketId w)) in
  let newUpdate := Event.mk newId (cu_title data) (cu_description data) userId 0 0 [] in
  let w' := exec (createUpdate socketId newId (Some data)) w in
  let error := error_to socketId "updateError" "Failed to create update" in
  (true ∉ take 2 (storeFaults w) →
   events w' = store_event newUpdate (events w) ∧
   console w' = console w ∧
   ∃ organizer,
     trace w' = (trace w ++ [SavedEvent newUpdate;
                             Emit (mkEmission ToAll "newUpdate"
                                     (PNewUpdate newUpdate organizer))])%list) ∧
  (head (storeFaults w) = Some true →
   events w' = events w ∧ trace w' = (trace w ++ [error])%list) ∧
  (take 2 (storeFaults w) = [false; true] →
   events w' = store_event newUpdate (events w) ∧
   trace w' = (trace w ++ [SavedEvent newUpdate; error])%list).
Proof.
  intros Hu. unfold createUpdate. unfold_handler. rewrite Hu.
  generalize (Socket.userId (socket_of socketId w)). intros userId.
  destruct w as [reg socks us sets msgs evs faults tr con].
  destruct faults as [|[] [|[] fs]]; simpl; rewrite <- ?app_assoc; simpl;
    (split; [intros Hok|split; [intros Hf|intros Hf]]);
    first [ done
          | by (exfalso; apply Hok; repeat constructor)
          | by (split; [done|split; [done|eexists]]) ].
Qed.

Lemma createUpdate_outcomes_witness :
  events (exec (createUpdate "s1" "u2" (Some (mkCreateUpdateData "Quiz" "Monday")))
            campus_online) =
  [sports_day; Event.mk "u2" "Quiz" "Monday" "alice" 0 0 []].
Proof.
  destruct (createUpdate_outcomes campus_online "s1" "u2"
              (mkCreateUpdateData "Quiz" "Monday") eq_refl) as [Hok _].
  destruct Hok as [Hev _]; [apply not_elem_of_nil|]. exact Hev.
Defined.

(** ** Identity and presence (lines 212-288) *)

(** [userLogin] sets the connection's identity, whatever the store does. *)
Lemma userLogin_sockets socketId userId now w :
  sockets (exec (userLogin socketId userId now) w) =
  <[socketId := Socket.mk (Some userId) (Socket.rooms (socket_of socketId w))]> (sockets w).
Proof.
  set (S := <[socketId := _]> (sockets w)).
  apply (hoare_exec (λ w', w' = w) (λ w', sockets w' = S)); [|done].
  unfold userLogin.
  assert (silent (λ w', sockets w' = S)) as Hsilent by (intros w' Hw'; by repeat split).
  eapply hoare_try_catch; [|intros; by apply keeps_console_error].
  eapply hoare_bind with (R := λ _ w', sockets w' = S);
    [apply hoare_modify; by intros w' ->|intros _].
  apply keeps_bind; [by apply keeps_modify|intros _].
  apply keeps_bind; [by apply frame_findByIdAndUpdate|intros _].
  by apply frame_emitOnlineUsers.
Qed.

(** [userLogout] leaves every connection's identity as it is. *)
Lemma userLogout_sockets socketId userId now w :
  sockets (exec (userLogout socketId userId now) w) = sockets w.
Proof.
  apply (keeps_exec (λ w', sockets w' = sockets w)); [|done].
  by apply frame_userLogout.
Qed.

(** X17: [userLogout] never clears a connection's identity.  After
    [userLogin] and then [userLogout] of the same user, whatever the store
    does, the registry reports the user offline while the connection still
    carries the user's identity, so the identity checks of [sendMessage],
    [createUpdate], [updateReaction] and [updateSettings] still pass. *)
Theorem userLogout_keeps_identity w socketId userId now socketId' now' :
  let w1 := exec (userLogin socketId userId now) w in
  let w2 := exec (userLogout socketId' userId now') w1 in
  isOnline (onlineUsersMap w2) userId = false ∧
  Socket.userId (socket_of socketId w2) = Some userId ∧
  truthy (Socket.userId (socket_of socketId w2)) = negb (String.eqb userId "").
Proof.
  intros w1 w2.
  assert (Socket.userId (socket_of socketId w2) = Some userId) as Hid.
  { unfold socket_of, w2, w1.
    by rewrite userLogout_sockets, userLogin_sockets, lookup_insert_eq. }
  split; [|split; [done|by rewrite Hid]].
  unfold w2. rewrite userLogout_registry.
  unfold isOnline, JsMap.has. by rewrite get_delete_eq.
Qed.

Lemma set_absent {V} k (v : V) m :
  JsMap.get k m = None → JsMap.set k v m = (m ++ [(k, v)])%list.
Proof.
  induction m as [|[k' v'] m IH]; simpl; [done|].
  case_decide; [done|]. intros Hget. by rewrite IH.
Qed.

Lemma delete_absent {V} k (m : list (string * V)) :
  JsMap.get k m = None → JsMap.delete k m = m.
Proof.
  induction m as [|[k' v'] m IH]; simpl; [done|].
  case_decide; [done|]. intros Hget. by rewrite IH.
Qed.

Lemma delete_app {V} k (m1 m2 : list (string * V)) :
  JsMap.delete k (m1 ++ m2) = (JsMap.delete k m1 ++ JsMap.delete k m2)%list.
Proof.
  induction m1 as [|[k' v'] m1 IH]; simpl; [done|].
  case_decide; [done|]. by rewrite IH.
Qed.

(** X18: associating a connection is idempotent, and a disconnect undoes
    it: registering the same connection for the same user twice gives the
    registry of registering it once; and for a user without an entry, on a
    connection no set holds, [userLogin] followed by [disconnect] gives back
    the registry as it was, whatever the store does. *)
Theorem userLogin_idempotent_and_undone_by_disconnect w socketId userId now now' :
  onlineUsersMap (run [UserLogin socketId userId now; UserLogin socketId userId now'] w) =
    onlineUsersMap (run [UserLogin socketId userId now] w) ∧
  (isOnline (onlineUsersMap w) userId = false →
   Forall (λ entry, socketId ∉ entry.2) (onlineUsersMap w) →
   onlineUsersMap (run [UserLogin socketId userId now; Disconnect socketId now'] w) =
     onlineUsersMap w).
Proof.
  rewrite !run_registry. simpl. generalize (onlineUsersMap w). intros m. split.
  - rewrite (register_as_set userId socketId (register userId socketId m)).
    rewrite connections_register_eq, register_as_set, set_set. f_equal.
    set_solver.
  - unfold isOnline, JsMap.has. intros Hoff Hfree.
    destruct (JsMap.get userId m) eqn:Hget; [done|].
    assert (connections m userId = ∅) as Hconn
      by (unfold connections; by rewrite Hget).
    rewrite register_as_set, (set_absent _ _ _ Hget), Hconn.
    unfold unregister. rewrite unregister_scan_find.
    assert (list_find (λ entry : string * gset string, socketId ∈ entry.2)
              (m ++ [(userId, {[socketId]} ∪ ∅)]) =
            Some (length m, (userId, {[socketId]} ∪ ∅))) as ->.
    { apply list_find_app_Some. right. split; [lia|].
      split; [by apply list_find_None|].
      rewrite Nat.sub_diag. cbn [list_find]. rewrite decide_True; [done|].
      cbn [snd]. set_solver. }
    cbv beta iota.
    assert ((({[socketId]} ∪ ∅) ∖ {[socketId]} : gset string) = ∅) as -> by set_solver.
    rewrite size_empty, decide_True by done.
    cbn [fst]. rewrite delete_app, (delete_absent _ _ Hget).
    cbn [JsMap.delete]. rewrite decide_True by done. by rewrite app_nil_r.
Qed.

Lemma userLogin_idempotent_and_undone_by_disconnect_witness :
  onlineUsersMap (run [UserLogin "s2" "bob" 5; Disconnect "s2" 6] campus_online) =
  onlineUsersMap campus_online.
Proof.
  destruct (userLogin_idempotent_and_undone_by_disconnect campus_online "s2" "bob" 5 6)
    as [_ Hundo].
  apply Hundo; [reflexivity|].
  apply Forall_singleton. simpl. by intros [=]%elem_of_singleton.
Defined.


(** X19: a disconnect that does not take a user offline is silent: when
    the scan finds no set holding the connection, or the user it frees still
    has other connections, or the freed user id is the empty string (falsy
    in JavaScript), the handler only updates the registry: it makes no store
    call, writes nothing, broadcasts nothing and logs nothing. *)
Theorem disconnect_silent_unless_user_goes_offline w socketId now m' found :
  unregister socketId (onlineUsersMap w) = (m', found) →
  found = None ∨ found = Some "" →
  exec (disconnect socketId now) w = with_onlineUsersMap m' w.
Proof.
  intros Hscan Hfound. unfold disconnect. unfold_handler. rewrite Hscan.
  by destruct Hfound as [-> | ->].
Qed.

Lemma disconnect_silent_unless_user_goes_offline_witness :
  let w := run [Connection "s3"; UserLogin "s3" "" 7] campus in
  exec (disconnect "s3" 8) w = with_onlineUsersMap [] w ∧
  isOnline (onlineUsersMap w) "" = true.
Proof.
  split; [|reflexivity].
  apply (disconnect_silent_unless_user_goes_offline _ "s3" 8 [] (Some ""));
    [reflexivity|by right].
Defined.



(** ** Settings (lines 292-317) *)

(** X21: the presence broadcast after a settings update depends on the
    type of the [showOnlineStatus] sent, not on its being there.  On an
    authenticated connection, for a payload without a [user] field, when
    the store answers, [updateSettings] makes one settings write for the
    connection's identity; the [onlineUsers] broadcast follows exactly when
    the [showOnlineStatus] sent is a boolean, so a payload without the
    field, or with the string ["false"], is written without a broadcast.
    With or without the broadcast, no [User] document is written. *)
Theorem updateSettings_broadcasts_on_boolean_only w socketId updatedSettings :
  truthy (Socket.userId (socket_of socketId w)) = true →
  updatedSettings !! "user" = None →
  true ∉ take 2 (storeFaults w) →
  let userId := default "" (Socket.userId (socket_of socketId w)) in
  let w' := exec (updateSettings socketId updatedSettings) w in
  users w' = users w ∧
  console w' = console w ∧
  ∃ settings,
    match updatedSettings !! "showOnlineStatus" with
    | Some (JBool _) =>
        ∃ snapshot,
          trace w' = (trace w ++ [UpdatedSettings userId settings;
                                  Emit (mkEmission ToAll "onlineUsers"
                                          (POnlineUsers snapshot))])%list
    | _ => trace w' = (trace w ++ [UpdatedSettings userId settings])%list
    end.
Proof.
  intros Hu _ Hfaults userId w'.
  unfold w', userId, updateSettings, emitOnlineUsers, has_boolean_showOnlineStatus.
  unfold_handler. rewrite Hu.
  generalize (Socket.userId (socket_of socketId w)). intros u.
  destruct w as [reg socks us sets msgs evs faults tr con]. simpl in Hfaults.
  destruct (updatedSettings !! "showOnlineStatus") as [[b|str|n]|];
    destruct faults as [|[] [|[] fs]]; cbn -[union lookup insert];
    first [ by (exfalso; apply Hfaults; repeat constructor)
          | (split; [done|]; split; [done|]; eexists;
             first [done | eexists; by rewrite <- app_assoc]) ].
Qed.

Lemma updateSettings_broadcasts_on_boolean_only_witness :
  let w' := exec (updateSettings "s1" {[ "showOnlineStatus" := JString "false" ]})
              campus_online in
  users w' = users campus_online ∧
  ∃ settings, trace w' = (trace campus_online ++ [UpdatedSettings "alice" settings])%list.
Proof.
  assert (({[ "showOnlineStatus" := JString "false" ]} : gmap string jsval) !! "user" = None)
    as Hnouser by (by apply lookup_singleton_ne).
  destruct (updateSettings_broadcasts_on_boolean_only campus_online "s1"
              {[ "showOnlineStatus" := JString "false" ]} eq_refl Hnouser
              (not_elem_of_nil true))
    as (Hus & _ & settings & Htr).
  rewrite lookup_singleton_eq in Htr.
  split; [exact Hus|]. exists settings. exact Htr.
Defined.

(** ** Rooms and identities (lines 57-60, 215) *)

(** X22: [joinUserRoom] asks for no identity: on any connection it adds the
    room named by the id sent to the rooms of the connection, keeps the
    rooms already joined and the connection's identity, and changes nothing
    else; joining the same room again changes nothing. *)
Theorem joinUserRoom_adds_room_idempotently w socketId userId :
  let w' := exec (joinUserRoom socketId userId) w in
  Socket.rooms (socket_of socketId w') = {[ userId ]} ∪ Socket.rooms (socket_of socketId w) ∧
  Socket.userId (socket_of socketId w') = Socket.userId (socket_of socketId w) ∧
  w' = with_sockets (sockets w') w ∧
  exec (joinUserRoom socketId userId) w' = w'.
Proof.
  intros w'.
  assert (w' = with_sockets
                 (<[socketId := Socket.mk (Socket.userId (socket_of socketId w))
                                  ({[ userId ]} ∪ Socket.rooms (socket_of socketId w))]>
                    (sockets w)) w) as Hw' by done.
  assert (socket_of socketId w' =
          Socket.mk (Socket.userId (socket_of socketId w))
            ({[ userId ]} ∪ Socket.rooms (socket_of socketId w))) as Hsock.
  { rewrite Hw'. unfold socket_of at 1. destruct w as [reg socks us sets msgs evs faults tr con].
    unfold with_sockets. cbn [sockets]. by rewrite lookup_insert_eq. }
  split; [by rewrite Hsock|]. split; [by rewrite Hsock|].
  split; [rewrite Hw'; by destruct w as [reg socks us sets msgs evs faults tr con]|].
  unfold joinUserRoom at 1, exec, modify. cbn [snd]. rewrite Hsock.
  cbn [Socket.userId Socket.rooms].
  assert ({[userId]} ∪ ({[userId]} ∪ Socket.rooms (socket_of socketId w)) =
          {[userId]} ∪ Socket.rooms (socket_of socketId w)) as -> by set_solver.
  rewrite Hw' at 1 3. destruct w as [reg socks us sets msgs evs faults tr con]. unfold with_sockets.
  cbn [sockets onlineUsersMap users userSettings messages events storeFaults trace console].
  by rewrite insert_insert_eq.
Qed.

(** The snapshot of a broadcast follows the order of the stored users. *)
Lemma snapshot_sublist (keys : list string) (us : list User.t) :
  (User._id <$> filter (λ u, User._id u ∈ keys ∧ User.showOnlineStatus u = true) us)
    `sublist_of` (User._id <$> us).
Proof. apply fmap_sublist, sublist_filter. Qed.

(** X23: a broadcast lists the visible online users in the order of the
    store, each stored user at most once however many connections the user
    has: the ids listed are a sublist of the stored ids, without duplicates
    when the stored ids have none. *)
Theorem emitOnlineUsers_lists_each_user_once w :
  head (storeFaults w) ≠ Some true →
  ∃ snapshot,
    trace (exec emitOnlineUsers w) =
      (trace w ++ [Emit (mkEmission ToAll "onlineUsers" (POnlineUsers snapshot))])%list ∧
    (ou_id <$> snapshot) `sublist_of` (User._id <$> users w) ∧
    (NoDup (User._id <$> users w) → NoDup (ou_id <$> snapshot)).
Proof.
  intros Hfault. eexists. split; [by apply emitOnlineUsers_snapshot|].
  rewrite <- list_fmap_compose.
  pose proof (snapshot_sublist (JsMap.keys (onlineUsersMap w)) (users w)) as Hsub.
  split; [exact Hsub|]. intros Hnd. by eapply sublist_NoDup.
Qed.

Lemma emitOnlineUsers_lists_each_user_once_witness :
  ∃ snapshot,
    trace (exec emitOnlineUsers campus_two_devices) =
      (trace campus_two_devices ++
       [Emit (mkEmission ToAll "onlineUsers" (POnlineUsers snapshot))])%list ∧
    (ou_id <$> snapshot) `sublist_of` (User._id <$> users campus_two_devices).
Proof.
  destruct (emitOnlineUsers_lists_each_user_once campus_two_devices)
    as (snapshot & Htr & Hsub & _); [discriminate|].
  exists snapshot. split; [exact Htr|exact Hsub].
Defined.

(** X24: the identity of a connection changes only through a new
    connection under its id or a [userLogin] on it: no other event, on this
    or on any other connection, changes [socket.userId], whatever the store
    does. *)
Theorem identity_only_set_by_own_login w socketId evs :
  Forall (λ ev, ¬ sets_identity_of socketId ev) evs →
  Socket.userId (socket_of socketId (run evs w)) = Socket.userId (socket_of socketId w).
Proof.
  set (I := λ w' : World,
         Socket.userId (socket_of socketId w') = Socket.userId (socket_of socketId w)).
  assert (silent I) as Hsilent by (intros w' Hw'; by repeat split).
  assert (∀ w' m, I w' → I (with_onlineUsersMap m w')) as Hreg by done.
  assert (∀ w' userId online seen, I w' →
            I (with_users ((λ u, if decide (User._id u = userId)
                                 then User.with_presence online seen u else u)
                           <$> users w') w')) as Husers by done.
  assert (∀ w' s, I w' → I (with_userSettings s w')) as Hsettings by done.
  assert (∀ w' m, I w' → I (with_messages (messages w' ++ [m]) w')) as Hmsg by done.
  assert (∀ w' e, I w' → I (with_events (store_event e (events w')) w')) as Hev by done.
  intros Hevs. cut (∀ w0, I w0 → I (run evs w0)); [intros Hgen; by apply Hgen|].
  induction Hevs as [|ev evs Hev1 _ IH]; intros w0 Hw0; simpl; [done|].
  apply IH. unfold step. apply keeps_exec; [|done].
  destruct ev as [s|s u|s d|s i d|s d|s u t|s u t|s t|s d]; simpl in *.
  - unfold connection. apply keeps_modify. intros w' Hw'. unfold I, socket_of in *.
    simpl. by rewrite lookup_insert_ne.
  - unfold joinUserRoom. apply keeps_modify. intros w' Hw'. unfold I in *.
    rewrite <- Hw'. unfold socket_of. simpl.
    destruct (decide (s = socketId)) as [->|Hne].
    + by rewrite lookup_insert_eq.
    + by rewrite lookup_insert_ne.
  - by apply frame_sendMessage.
  - by apply frame_createUpdate.
  - by apply frame_updateReaction.
  - unfold userLogin.
    apply keeps_try_catch; [|intros; by apply keeps_console_error].
    apply keeps_bind; [|intros _].
    { apply keeps_modify. intros w' Hw'. unfold I, socket_of in *.
      simpl. by rewrite lookup_insert_ne. }
    apply keeps_bind; [by apply keeps_modify|intros _].
    apply keeps_bind; [by apply frame_findByIdAndUpdate|intros _].
    by apply frame_emitOnlineUsers.
  - by apply frame_userLogout.
  - by apply frame_disconnect.
  - by apply frame_updateSettings.
Qed.

Lemma identity_only_set_by_own_login_witness :
  Socket.userId
    (socket_of "s1"
       (run [UserLogin "s2" "bob" 3; UserLogout "s2" "alice" 4; Disconnect "s1" 5;
             JoinUserRoom "s1" "bob"] campus_online)) = Some "alice".
Proof.
  rewrite (identity_only_set_by_own_login campus_online "s1"); [reflexivity|].
  repeat constructor; simpl; try tauto; discriminate.
Defined.
